(** * Go MCP server: the JSON-RPC dispatcher of [main.go]

    A shallow embedding of [handleMCP] and [executeTool], together with
    the part of Go's standard library they rest on ([unicode/utf8],
    [strconv.ParseFloat] and [encoding/json.Unmarshal]), followed by the
    properties of the dispatcher.

    Go strings and [[]byte] are byte sequences; both are modelled by
    [string], whose characters are the 256 bytes. *)

From Stdlib Require Import ZArith NArith String Ascii List Floats.SpecFloat.
From stdpp Require Import gmap strings list.

Local Open Scope string_scope.

(** ** Bytes *)

Definition byte := ascii.

Definition b2n (c : byte) : N := N_of_ascii c.
Definition n2b (n : N) : byte := ascii_of_N n.

(** [lo <= c <= hi] on bytes. *)
Definition between (lo hi : N) (c : byte) : bool :=
  (lo <=? b2n c)%N && (b2n c <=? hi)%N.

(** The byte 0x22, the JSON string delimiter. *)
Definition dquote : byte := "034"%char.

Fixpoint drop_bytes (n : nat) (s : string) : string :=
  match n, s with
  | S n', String _ t => drop_bytes n' t
  | _, _ => s
  end.

Fixpoint take_bytes (n : nat) (s : string) : string :=
  match n, s with
  | S n', String c t => String c (take_bytes n' t)
  | _, _ => EmptyString
  end.

(** ** Go values

    The dynamic types that flow through an [interface{}] in this
    program: what [encoding/json] stores into an empty interface, and
    the map and slice literals of [main.go]. *)

Definition float64 := spec_float.

Record Tool_ (A : Type) := mkTool {
  Name : string;
  Description : string;
  InputSchema : A
}.
Arguments mkTool {A} _ _ _.
Arguments Name {A} _.
Arguments Description {A} _.
Arguments InputSchema {A} _.

Local Unset Elimination Schemes.
Inductive any : Type :=
| nil_                                          (* the nil interface *)
| bool_ (b : bool)                              (* bool *)
| float64_ (f : float64)                        (* float64 *)
| string_ (s : string)                          (* string *)
| slice_any (l : list any)                      (* []interface{} *)
| map_any (m : gmap string any)                 (* map[string]interface{} *)
| map_bool (m : gmap string bool)               (* map[string]bool *)
| slice_string (l : list string)                (* []string *)
| slice_map_any (l : list (gmap string any))    (* []map[string]interface{} *)
| slice_Tool (l : list (Tool_ any)).            (* []Tool *)
Local Set Elimination Schemes.

(** ** unicode/utf8 and unicode/utf16 *)

Module utf8.

Definition RuneError : N := 65533.   (* U+FFFD *)
Definition RuneSelf : N := 128.

Definition cont (c : byte) : bool := between 128 191 c.
Definition low6 (c : byte) : N := N.land (b2n c) 63.

(** [DecodeRune p]: the first rune of [p] and its width in bytes;
    [(RuneError, 1)] when [p] does not start with a valid encoding. *)
Definition DecodeRune (p : string) : N * nat :=
  match p with
  | EmptyString => (RuneError, 0%nat)
  | String c0 t =>
    let x := b2n c0 in
    if (x <? RuneSelf)%N then (x, 1%nat)
    else if between 194 223 c0 then
      match t with
      | String c1 _ =>
        if cont c1 then (N.shiftl (N.land x 31) 6 + low6 c1, 2%nat)%N
        else (RuneError, 1%nat)
      | _ => (RuneError, 1%nat)
      end
    else if between 224 239 c0 then
      match t with
      | String c1 (String c2 _) =>
        let lo := if (x =? 224)%N then 160%N else 128%N in
        let hi := if (x =? 237)%N then 159%N else 191%N in
        if between lo hi c1 && cont c2
        then (N.shiftl (N.land x 15) 12 + N.shiftl (low6 c1) 6 + low6 c2,
              3%nat)%N
        else (RuneError, 1%nat)
      | _ => (RuneError, 1%nat)
      end
    else if between 240 244 c0 then
      match t with
      | String c1 (String c2 (String c3 _)) =>
        let lo := if (x =? 240)%N then 144%N else 128%N in
        let hi := if (x =? 244)%N then 143%N else 191%N in
        if between lo hi c1 && cont c2 && cont c3
        then (N.shiftl (N.land x 7) 18 + N.shiftl (low6 c1) 12
              + N.shiftl (low6 c2) 6 + low6 c3, 4%nat)%N
        else (RuneError, 1%nat)
      | _ => (RuneError, 1%nat)
      end
    else (RuneError, 1%nat)
  end.

Definition tail6 (r : N) (k : N) : byte :=
  n2b (128 + N.land (N.shiftr r k) 63).

Definition enc3 (r : N) : string :=
  String (n2b (224 + N.shiftr r 12))
    (String (tail6 r 6) (String (tail6 r 0) EmptyString)).

(** [EncodeRune r]: the UTF-8 encoding of [r]; surrogates and values
    above U+10FFFF are encoded as U+FFFD. *)
Definition EncodeRune (r : N) : string :=
  if (r <=? 127)%N then String (n2b r) EmptyString
  else if (r <=? 2047)%N then
    String (n2b (192 + N.shiftr r 6)) (String (tail6 r 0) EmptyString)
  else if (1114111 <? r)%N || ((55296 <=? r)%N && (r <=? 57343)%N)
    then enc3 RuneError
  else if (r <=? 65535)%N then enc3 r
  else String (n2b (240 + N.shiftr r 18))
         (String (tail6 r 12) (String (tail6 r 6)
            (String (tail6 r 0) EmptyString))).

End utf8.

Module utf16.

Definition IsSurrogate (r : N) : bool := (55296 <=? r)%N && (r <? 57344)%N.

(** [DecodeRune r1 r2]: the code point of a surrogate pair, U+FFFD when
    the pair is not valid; [None] for [r2] is [getu4]'s -1. *)
Definition DecodeRune (r1 : N) (r2 : option N) : N :=
  match r2 with
  | Some r2 =>
    if (55296 <=? r1)%N && (r1 <? 56320)%N
       && (56320 <=? r2)%N && (r2 <? 57344)%N
    then (N.shiftl (r1 - 55296) 10 + (r2 - 56320) + 65536)%N
    else utf8.RuneError
  | None => utf8.RuneError
  end.

End utf16.

(** ** strconv *)

Module strconv.

Definition isDigit (c : byte) : bool := between 48 57 c.

(** Reads a run of decimal digits, continuing the number [acc];
    returns the number, how many digits were read and what follows. *)
Fixpoint digits (s : string) (acc : Z) (n : Z) : Z * Z * string :=
  match s with
  | String c t =>
    if isDigit c then digits t (10 * acc + Z.of_N (b2n c) - 48)%Z (n + 1)%Z
    else (acc, n, s)
  | EmptyString => (acc, n, s)
  end.

(** The binary64 value nearest to [m * 10^e] (ties to even), for
    [m >= 0]. For [e < 0] the quotient is computed with enough extra
    bits that one rounding step, told where the remainder lies, gives
    the correctly rounded result. *)
Definition round64 (neg : bool) (m e : Z) : float64 :=
  if (m =? 0)%Z then S754_zero neg
  else if (0 <=? e)%Z then
    binary_normalize 53 1024 (if neg then - (m * 10 ^ e) else m * 10 ^ e)%Z
      0 neg
  else
    let d := (10 ^ (- e))%Z in
    let k := (1200 + Z.log2 d)%Z in
    let n := (m * 2 ^ k)%Z in
    let q := (n / d)%Z in
    let r := (n mod d)%Z in
    let loc :=
      if (r =? 0)%Z then loc_Exact else loc_Inexact (2 * r ?= d)%Z in
    binary_round_aux 53 1024 neg q (- k)%Z loc.

(** [ParseFloat s 64] on the decimal literals the JSON scanner lets
    through: [None] is Go's error result, which for such a literal
    means the value is out of range (it rounds to an infinity). *)
Definition ParseFloat (s : string) : option float64 :=
  let '(neg, s1) :=
    match s with
    | String "-"%char t => (true, t)
    | _ => (false, s)
    end in
  let '(ip, ni, s2) := digits s1 0 0 in
  if (ni =? 0)%Z then None else
  let '(mant, nf, s3) :=
    match s2 with
    | String "."%char t => digits t ip 0
    | _ => (ip, 0%Z, s2)
    end in
  let '(ex, ne, s4) :=
    match s3 with
    | String ("e" | "E")%char (String "-"%char t) =>
      let '(x, n, r) := digits t 0 0 in ((- x)%Z, n, r)
    | String ("e" | "E")%char (String "+"%char t) => digits t 0 0
    | String ("e" | "E")%char t => digits t 0 0
    | _ => (0%Z, 1%Z, s3)
    end in
  if (ne =? 0)%Z then None else
  match s4 with
  | EmptyString =>
    match round64 neg mant (ex - nf) with
    | S754_infinity _ | S754_nan => None
    | f => Some f
    end
  | _ => None
  end.

(** [fmt]'s [%d] on an [int]. *)
Fixpoint utoa (fuel : nat) (n : Z) (acc : string) : string :=
  let acc' := String (n2b (Z.to_N (48 + n mod 10))) acc in
  match fuel with
  | O => acc'
  | S fuel' => if (n <? 10)%Z then acc' else utoa fuel' (n / 10)%Z acc'
  end.

Definition Itoa (n : Z) : string :=
  if (n <? 0)%Z then String "-"%char (utoa (Z.to_nat (- n)) (- n) EmptyString)
  else utoa (Z.to_nat n) n EmptyString.

End strconv.

(** ** encoding/json: the scanner

    [Valid] JSON text is read into a syntax tree. String literals are
    kept unquoted (as Go strings), number literals as their text, and
    every object member keeps the bytes of its value, which is what a
    [json.RawMessage] field receives. *)

Module json.

Local Unset Elimination Schemes.
Inductive value : Type :=
| Null
| Bool (b : bool)
| Number (lit : string)
| Str (s : string)
| Array (elems : list value)
| Object (members : list (string * string * value)).
Local Set Elimination Schemes.

Definition isSpace (c : byte) : bool :=
  match c with
  | " " | "009" | "010" | "013" => true
  | _ => false
  end%char.

Fixpoint skipSpace (s : string) : string :=
  match s with
  | String c t => if isSpace c then skipSpace t else s
  | EmptyString => s
  end.

Definition isHex (c : byte) : bool :=
  between 48 57 c || between 97 102 c || between 65 70 c.

Definition hexval (c : byte) : N :=
  if between 48 57 c then b2n c - 48
  else if between 97 102 c then b2n c - 87
  else b2n c - 55.

(** [getu4 s]: the rune of a [\uXXXX] escape at the start of [s]. *)
Definition getu4 (s : string) : option N :=
  match s with
  | String "\" (String "u" (String a (String b (String c (String d _))))) =>
    if isHex a && isHex b && isHex c && isHex d
    then Some (4096 * hexval a + 256 * hexval b + 16 * hexval c + hexval d)%N
    else None
  | _ => None
  end%char.

Definition isEscape (c : byte) : bool :=
  match c with
  | "\" | "/" | "b" | "f" | "n" | "r" | "t" => true
  | _ => Ascii.eqb c dquote
  end%char.

(** The body of a string literal, after its opening quote: the bytes
    up to the closing quote, and what follows it. Control characters
    and malformed escapes are syntax errors. *)
Fixpoint scanString (s : string) : option (string * string) :=
  match s with
  | EmptyString => None
  | String c t =>
    if Ascii.eqb c dquote then Some (EmptyString, t)
    else if Ascii.eqb c "\"%char then
      match t with
      | String e t' =>
        if isEscape e then
          match scanString t' with
          | Some (body, rest) => Some (String c (String e body), rest)
          | None => None
          end
        else if Ascii.eqb e "u"%char then
          match t' with
          | String h1 (String h2 (String h3 (String h4 t''))) =>
            if isHex h1 && isHex h2 && isHex h3 && isHex h4 then
              match scanString t'' with
              | Some (body, rest) =>
                Some (String c (String e (String h1 (String h2
                        (String h3 (String h4 body))))), rest)
              | None => None
              end
            else None
          | _ => None
          end
        else None
      | EmptyString => None
      end
    else if (b2n c <? 32)%N then None
    else
      match scanString t with
      | Some (body, rest) => Some (String c body, rest)
      | None => None
      end
  end.

Definition unescape (e : byte) : byte :=
  match e with
  | "b" => "008" | "f" => "012" | "n" => "010" | "r" => "013" | "t" => "009"
  | _ => e
  end%char.

(** [unquoteBytes] on the body of a scanned literal. [skip] counts the
    bytes of [s] that belong to an escape or a multi-byte rune already
    written out. Invalid UTF-8 becomes U+FFFD, as does a lone
    surrogate escape. *)
Fixpoint unquoteBytes (skip : nat) (s : string) : string :=
  match s with
  | EmptyString => EmptyString
  | String c t =>
    match skip with
    | S k => unquoteBytes k t
    | O =>
      if Ascii.eqb c "\"%char then
        match t with
        | String "u"%char _ =>
          match getu4 s with
          | Some rr =>
            if utf16.IsSurrogate rr then
              let dec := utf16.DecodeRune rr (getu4 (drop_bytes 6 s)) in
              if (dec =? utf8.RuneError)%N
              then utf8.EncodeRune utf8.RuneError +:+ unquoteBytes 5 t
              else utf8.EncodeRune dec +:+ unquoteBytes 11 t
            else utf8.EncodeRune rr +:+ unquoteBytes 5 t
          | None => EmptyString
          end
        | String e _ => String (unescape e) (unquoteBytes 1 t)
        | EmptyString => EmptyString
        end
      else if (b2n c <? utf8.RuneSelf)%N then String c (unquoteBytes 0 t)
      else
        let '(rr, size) := utf8.DecodeRune s in
        utf8.EncodeRune rr +:+ unquoteBytes (size - 1) t
    end
  end.

Definition unquote (body : string) : string := unquoteBytes 0 body.

Fixpoint spanDigits (s : string) : string * string :=
  match s with
  | String c t =>
    if strconv.isDigit c
    then let '(d, r) := spanDigits t in (String c d, r)
    else (EmptyString, s)
  | EmptyString => (EmptyString, EmptyString)
  end.

(** An optional byte satisfying [p]. *)
Definition optByte (p : byte -> bool) (s : string) : string * string :=
  match s with
  | String c t => if p c then (String c EmptyString, t) else (EmptyString, s)
  | EmptyString => (EmptyString, s)
  end.

(** The integer part: [0], or a non-zero digit and more digits. *)
Definition scanInt (s : string) : option (string * string) :=
  match s with
  | String c t =>
    if Ascii.eqb c "0"%char then Some (String c EmptyString, t)
    else if between 49 57 c
    then let '(d, r) := spanDigits t in Some (String c d, r)
    else None
  | EmptyString => None
  end.

(** The optional fraction: a point and at least one digit. *)
Definition scanFrac (s : string) : option (string * string) :=
  match s with
  | String c t =>
    if Ascii.eqb c "."%char then
      let '(d, r) := spanDigits t in
      match d with
      | EmptyString => None
      | _ => Some (String c d, r)
      end
    else Some (EmptyString, s)
  | EmptyString => Some (EmptyString, s)
  end.

(** The optional exponent: [e] or [E], an optional sign and at least
    one digit. *)
Definition scanExp (s : string) : option (string * string) :=
  match s with
  | String c t =>
    if Ascii.eqb c "e"%char || Ascii.eqb c "E"%char then
      let '(sg, t') :=
        optByte (fun g => Ascii.eqb g "+"%char || Ascii.eqb g "-"%char) t in
      let '(d, r) := spanDigits t' in
      match d with
      | EmptyString => None
      | _ => Some (String c (sg +:+ d), r)
      end
    else Some (EmptyString, s)
  | EmptyString => Some (EmptyString, s)
  end.

(** A number literal at the start of [s]: its text and what follows. *)
Definition scanNumber (s : string) : option (string * string) :=
  let '(sign, s1) := optByte (Ascii.eqb "-"%char) s in
  match scanInt s1 with
  | None => None
  | Some (int, s2) =>
    match scanFrac s2 with
    | None => None
    | Some (frac, s3) =>
      match scanExp s3 with
      | None => None
      | Some (exp, s4) => Some (sign +:+ int +:+ frac +:+ exp, s4)
      end
    end
  end.

Fixpoint hasPrefix (lit s : string) : bool :=
  match lit, s with
  | EmptyString, _ => true
  | String a lit', String b s' => Ascii.eqb a b && hasPrefix lit' s'
  | String _ _, EmptyString => false
  end.

(** One of the literals [true], [false] and [null]. *)
Definition literal (lit : string) (v : value) (s : string)
  : option (value * string) :=
  if hasPrefix lit s then Some (v, drop_bytes (String.length lit) s)
  else None.

Section nested.

(** The parser of the values one nesting level down. *)
Variable parseNested : string -> option (value * string).

(** Array elements; [s] starts at an element. [n] bounds the number
    of elements by the number of bytes left. *)
Fixpoint parseElems (n : nat) (s : string)
  : option (list value * string) :=
  match n with
  | O => None
  | S n' =>
    match parseNested s with
    | None => None
    | Some (v, r) =>
      match skipSpace r with
      | String c r' =>
        if Ascii.eqb c ","%char then
          match parseElems n' (skipSpace r') with
          | Some (vs, r'') => Some (v :: vs, r'')
          | None => None
          end
        else if Ascii.eqb c "]"%char then Some ([v], r')
        else None
      | EmptyString => None
      end
    end
  end.

(** An array, after its opening bracket. *)
Definition parseArray (s : string) : option (value * string) :=
  match skipSpace s with
  | String c r =>
    if Ascii.eqb c "]"%char then Some (Array [], r)
    else
      match parseElems (String.length (String c r)) (String c r) with
      | Some (vs, r') => Some (Array vs, r')
      | None => None
      end
  | EmptyString => None
  end.

(** Object members; [s] starts at a key. *)
Fixpoint parseMembers (n : nat) (s : string)
  : option (list (string * string * value) * string) :=
  match n with
  | O => None
  | S n' =>
    match s with
    | String q t =>
      if Ascii.eqb q dquote then
        match scanString t with
        | None => None
        | Some (key, r) =>
          match skipSpace r with
          | String c r1 =>
            if Ascii.eqb c ":"%char then
              let sv := skipSpace r1 in
              match parseNested sv with
              | None => None
              | Some (v, r2) =>
                let raw :=
                  take_bytes (String.length sv - String.length r2) sv in
                let m := (unquote key, raw, v) in
                match skipSpace r2 with
                | String c' r3 =>
                  if Ascii.eqb c' ","%char then
                    match parseMembers n' (skipSpace r3) with
                    | Some (ms, r4) => Some (m :: ms, r4)
                    | None => None
                    end
                  else if Ascii.eqb c' "}"%char then Some ([m], r3)
                  else None
                | EmptyString => None
                end
              end
            else None
          | EmptyString => None
          end
        end
      else None
    | EmptyString => None
    end
  end.

(** An object, after its opening brace. *)
Definition parseObject (s : string) : option (value * string) :=
  match skipSpace s with
  | String c r =>
    if Ascii.eqb c "}"%char then Some (Object [], r)
    else
      match parseMembers (String.length (String c r)) (String c r) with
      | Some (ms, r') => Some (Object ms, r')
      | None => None
      end
  | EmptyString => None
  end.

End nested.

(** One value at the start of [s]. [depth] is how many more levels of
    arrays and objects may be opened: the scanner gives up beyond
    [maxNestingDepth]. *)
Fixpoint parseValue (depth : nat) (s : string) : option (value * string) :=
  match s with
  | EmptyString => None
  | String c t =>
    if Ascii.eqb c "{"%char then
      match depth with
      | O => None
      | S d => parseObject (parseValue d) t
      end
    else if Ascii.eqb c "["%char then
      match depth with
      | O => None
      | S d => parseArray (parseValue d) t
      end
    else if Ascii.eqb c dquote then
      match scanString t with
      | Some (body, r) => Some (Str (unquote body), r)
      | None => None
      end
    else if Ascii.eqb c "t"%char then literal "true" (Bool true) s
    else if Ascii.eqb c "f"%char then literal "false" (Bool false) s
    else if Ascii.eqb c "n"%char then literal "null" Null s
    else if Ascii.eqb c "-"%char || strconv.isDigit c then
      match scanNumber s with
      | Some (lit, r) => Some (Number lit, r)
      | None => None
      end
    else None
  end.

Definition maxNestingDepth : nat := Z.to_nat 10000.

(** [parse data]: the value of a JSON text, [None] when [data] is not
    valid JSON (this is [checkValid] failing with a [SyntaxError]). *)
Definition parse (data : string) : option value :=
  match parseValue maxNestingDepth (skipSpace data) with
  | Some (v, r) =>
    match skipSpace r with
    | EmptyString => Some v
    | _ => None
    end
  | None => None
  end.

Definition Valid (data : string) : bool :=
  match parse data with Some _ => true | None => false end.

(** *** Unmarshal

    Decoding stores a value into a target that already holds
    something. The input is checked first, so a syntax error leaves the
    target untouched. A value of the wrong kind for its target is
    skipped: the target keeps what it held, the first such error is
    remembered as an [UnmarshalTypeError], and decoding goes on (the
    package documents that Unmarshal skips that field and completes the
    unmarshaling as best it can). The members of an object are stored
    one after the other, so a repeated key is stored more than once. *)

Inductive error : Type :=
| SyntaxError
| UnmarshalTypeError (Value : string).

Definition saveError (saved new : option error) : option error :=
  match saved with
  | Some _ => saved
  | None => new
  end.

Definition RawMessage := string.

Definition kind (v : value) : string :=
  match v with
  | Null => "null"
  | Bool _ => "bool"
  | Number _ => "number"
  | Str _ => "string"
  | Array _ => "array"
  | Object _ => "object"
  end.

(** What a value becomes inside an [interface{}]. An object becomes a
    map, in which a repeated key keeps its last value. *)
Fixpoint valueInterface (v : value) : any * option error :=
  match v with
  | Null => (nil_, None)
  | Bool b => (bool_ b, None)
  | Str s => (string_ s, None)
  | Number lit =>
    match strconv.ParseFloat lit with
    | Some f => (float64_ f, None)
    | None => (nil_, Some (UnmarshalTypeError ("number " +:+ lit)))
    end
  | Array elems =>
    let fix arrayInterface (l : list value) : list any * option error :=
      match l with
      | [] => ([], None)
      | x :: l' =>
        let '(a, e) := valueInterface x in
        let '(rest, e') := arrayInterface l' in
        (a :: rest, saveError e e')
      end in
    let '(l, e) := arrayInterface elems in (slice_any l, e)
  | Object members =>
    let fix objectInterface (l : list (string * string * value))
          (m : gmap string any) : gmap string any * option error :=
      match l with
      | [] => (m, None)
      | (key, _, x) :: l' =>
        let '(a, e) := valueInterface x in
        let '(m', e') := objectInterface l' (<[key := a]> m) in
        (m', saveError e e')
      end in
    let '(m, e) := objectInterface members ∅ in (map_any m, e)
  end.

(** Into a field of type [interface{}]. *)
Definition storeInterface (v : value) (cur : any) : any * option error :=
  match v with
  | Number lit =>
    match strconv.ParseFloat lit with
    | Some f => (float64_ f, None)
    | None => (cur, Some (UnmarshalTypeError ("number " +:+ lit)))
    end
  | _ => valueInterface v
  end.

(** Into a field of type [string]: [null] is a no-op. *)
Definition storeString (v : value) (cur : string) : string * option error :=
  match v with
  | Str s => (s, None)
  | Null => (cur, None)
  | _ => (cur, Some (UnmarshalTypeError (kind v)))
  end.

Definition upper (c : byte) : byte :=
  if between 97 122 c then n2b (b2n c - 32) else c.

(** [foldName]: ASCII letters are upper-cased; U+017F and U+212A fold
    to S and K. Other runes fold among non-ASCII runes and are left as
    they are: the names compared here are ASCII. *)
Fixpoint foldName (s : string) : string :=
  match s with
  | String "197" (String "191" t) => String "S" (foldName t)
  | String "226" (String "132" (String "170" t)) => String "K" (foldName t)
  | String c t => String (upper c) (foldName t)
  | EmptyString => EmptyString
  end%char.

(** Does the object key [key] select the field named [name]? *)
Definition fieldIs (name key : string) : bool :=
  String.eqb key name || String.eqb (foldName key) (foldName name).

(** Into a struct whose fields are filled by [field key raw v]: the
    members are stored in the order they appear; [null] is a no-op. *)
Definition storeMember {T : Type}
    (field : string -> RawMessage -> value -> T -> T * option error)
    (acc : T * option error) (m : string * string * value)
  : T * option error :=
  let '(t, e) := acc in
  let '(key, raw, x) := m in
  let '(t', e') := field key raw x t in
  (t', saveError e e').

Definition storeStruct {T : Type}
    (field : string -> RawMessage -> value -> T -> T * option error)
    (v : value) (t : T) : T * option error :=
  match v with
  | Null => (t, None)
  | Object members => fold_left (storeMember field) members (t, None)
  | _ => (t, Some (UnmarshalTypeError (kind v)))
  end.

(** [Unmarshal data &t], for a target decoded by [store]: the new
    target and the error returned. *)
Definition Unmarshal {T : Type} (store : value -> T -> T * option error)
    (data : string) (t : T) : T * option error :=
  match parse data with
  | None => (t, Some SyntaxError)
  | Some v => store v t
  end.

End json.

(** Example JSON texts are written with an apostrophe where the text
    has the byte 0x22; [js] puts the byte back. *)
Fixpoint js (s : string) : string :=
  match s with
  | String c t => String (if Ascii.eqb c "'"%char then dquote else c) (js t)
  | EmptyString => EmptyString
  end.

(** ** net/http and runtime, as far as the handler uses them *)

Module http.

(** A request: its method and the outcome of [io.ReadAll(r.Body)],
    [None] when reading fails. *)
Record Request := mkRequest {
  Method : string;
  Body : option string
}.

Definition StatusOK : Z := 200.
Definition StatusBadRequest : Z := 400.
Definition StatusMethodNotAllowed : Z := 405.

End http.

Module runtime.

(** The host facts [system_info] reports. *)
Record t := mk {
  GOOS : string;
  GOARCH : string;
  Version : string;
  NumCPU : Z
}.

End runtime.

(** ** MCP server types *)

Module JSONRPCRequest.

Record t := mk {
  JSONRPC : string;
  ID : any;
  Method : string;
  Params : json.RawMessage
}.

(** [var req JSONRPCRequest] *)
Definition zero : t := mk "" nil_ "" "".

(** The fields by their [json] tags. *)
Definition field (key : string) (raw : json.RawMessage) (v : json.value)
    (r : t) : t * option json.error :=
  if json.fieldIs "jsonrpc" key then
    let '(x, e) := json.storeString v (JSONRPC r) in
    (mk x (ID r) (Method r) (Params r), e)
  else if json.fieldIs "id" key then
    let '(x, e) := json.storeInterface v (ID r) in
    (mk (JSONRPC r) x (Method r) (Params r), e)
  else if json.fieldIs "method" key then
    let '(x, e) := json.storeString v (Method r) in
    (mk (JSONRPC r) (ID r) x (Params r), e)
  else if json.fieldIs "params" key then
    (mk (JSONRPC r) (ID r) (Method r) raw, None)
  else (r, None).

Definition store := json.storeStruct field.

End JSONRPCRequest.

Module JSONRPCError.

Record t := mk {
  Code : Z;
  Message : string;
  Data : any
}.

End JSONRPCError.

Module JSONRPCResponse.

(** [Error] is a pointer: [None] is nil. *)
Record t := mk {
  JSONRPC : string;
  ID : any;
  Result : any;
  Error : option JSONRPCError.t
}.

(** [result] and [error] carry [omitempty]: the encoder leaves out a
    nil interface and a nil pointer. *)
Definition hasResult (r : t) : bool :=
  match Result r with
  | nil_ => false
  | _ => true
  end.

Definition hasError (r : t) : bool :=
  match Error r with
  | Some _ => true
  | None => false
  end.

(** The keys of the encoded envelope. *)
Definition keys (r : t) : list string :=
  (["jsonrpc"; "id"]
     ++ (if hasResult r then ["result"] else [])
     ++ (if hasError r then ["error"] else []))%list.

End JSONRPCResponse.

Abbreviation Tool := (Tool_ any).

Record MCPServer := mkServer {
  tools : gmap string Tool
}.

Definition NewMCPServer : MCPServer := {| tools := ∅ |}.

Definition system_info_tool : Tool :=
  {| Name := "system_info";
     Description := "Get system information";
     InputSchema := map_any {[
       "type" := string_ "object";
       "properties" := map_any ∅ ]} |}.

Definition echo_tool : Tool :=
  {| Name := "echo";
     Description := "Echo back a message";
     InputSchema := map_any {[
       "type" := string_ "object";
       "properties" := map_any {[
         "message" := map_any {[
           "type" := string_ "string";
           "description" := string_ "Message to echo" ]} ]};
       "required" := slice_string ["message"] ]} |}.

Definition setupTools (s : MCPServer) : MCPServer :=
  {| tools := <["echo" := echo_tool]>
                (<["system_info" := system_info_tool]> (tools s)) |}.

(** The server [main] serves with. *)
Definition server : MCPServer := setupTools NewMCPServer.

(** The params of [tools/call]. *)
Module callParams.

Record t := mk {
  Name : string;
  Arguments : json.RawMessage
}.

Definition zero : t := mk "" "".

Definition field (key : string) (raw : json.RawMessage) (v : json.value)
    (p : t) : t * option json.error :=
  if json.fieldIs "name" key then
    let '(x, e) := json.storeString v (Name p) in (mk x (Arguments p), e)
  else if json.fieldIs "arguments" key then (mk (Name p) raw, None)
  else (p, None).

Definition store := json.storeStruct field.

End callParams.

(** The arguments of the [echo] tool. *)
Module echoParams.

Record t := mk {
  Message : string
}.

Definition zero : t := mk "".

Definition field (key : string) (raw : json.RawMessage) (v : json.value)
    (p : t) : t * option json.error :=
  if json.fieldIs "message" key then
    let '(x, e) := json.storeString v (Message p) in (mk x, e)
  else (p, None).

Definition store := json.storeStruct field.

End echoParams.

(** A tool result: [{"content": [{"type": "text", "text": text}]}]. *)
Definition textContent (text : string) : any :=
  map_any {[
    "content" := slice_map_any [
      {[ "type" := string_ "text"; "text" := string_ text ]} ] ]}.

Definition executeTool (rt : runtime.t) (s : MCPServer) (name : string)
    (args : json.RawMessage) : any :=
  if String.eqb name "system_info" then
    textContent
      ("OS: " +:+ runtime.GOOS rt +:+ String "010" ("Arch: "
       +:+ runtime.GOARCH rt +:+ String "010" ("Go Version: "
       +:+ runtime.Version rt +:+ String "010" ("CPUs: "
       +:+ strconv.Itoa (runtime.NumCPU rt)))))
  else if String.eqb name "echo" then
    (* the error of Unmarshal is dropped *)
    let params := fst (json.Unmarshal echoParams.store args echoParams.zero) in
    textContent ("Echo: " +:+ echoParams.Message params)
  else
    map_any {[ "error" := string_ "Unknown tool" ]}.

(** What the handler does with its [ResponseWriter] after setting the
    headers. *)
Inductive written : Type :=
| WriteHeader (code : Z)
| Encode (v : any)
| EncodeResponse (resp : JSONRPCResponse.t)
| HTTPError (msg : string) (code : Z).

Record reply := mkReply {
  Header : list (string * string);
  Out : written
}.

Definition corsHeaders : list (string * string) :=
  [ ("Content-Type", "application/json");
    ("Access-Control-Allow-Origin", "*");
    ("Access-Control-Allow-Methods", "GET, POST, OPTIONS");
    ("Access-Control-Allow-Headers", "Content-Type") ].

Definition serverInfo : any :=
  map_any {[
    "name" := string_ "Go MCP Server";
    "version" := string_ "1.0.0";
    "protocol" := string_ "2024-11-05";
    "capabilities" := map_any {[
      "tools" := map_bool {[ "listChanged" := true ]} ]} ]}.

Definition parseErrorResponse : JSONRPCResponse.t :=
  {| JSONRPCResponse.JSONRPC := "2.0";
     JSONRPCResponse.ID := nil_;
     JSONRPCResponse.Result := nil_;
     JSONRPCResponse.Error :=
       Some {| JSONRPCError.Code := -32700;
               JSONRPCError.Message := "Parse error";
               JSONRPCError.Data := nil_ |} |}.

Definition initializeResult : any :=
  map_any {[
    "protocolVersion" := string_ "2024-11-05";
    "capabilities" := map_any {[
      "tools" := map_bool {[ "listChanged" := true ]} ]};
    "serverInfo" := map_any {[
      "name" := string_ "Go MCP Server";
      "version" := string_ "1.0.0" ]} ]}.

Definition resultResponse (id result : any) : JSONRPCResponse.t :=
  {| JSONRPCResponse.JSONRPC := "2.0";
     JSONRPCResponse.ID := id;
     JSONRPCResponse.Result := result;
     JSONRPCResponse.Error := None |}.

Definition methodNotFoundResponse (id : any) : JSONRPCResponse.t :=
  {| JSONRPCResponse.JSONRPC := "2.0";
     JSONRPCResponse.ID := id;
     JSONRPCResponse.Result := nil_;
     JSONRPCResponse.Error :=
       Some {| JSONRPCError.Code := -32601;
               JSONRPCError.Message := "Method not found";
               JSONRPCError.Data := nil_ |} |}.

(** [range s.tools] visits the entries of the map in an order the
    runtime picks; [visit] is the order picked for this request. *)
Definition rangeOrder (m : gmap string Tool) (visit : list (string * Tool))
  : Prop :=
  visit ≡ₚ map_to_list m.

(** The switch on [req.Method]. *)
Definition dispatch (rt : runtime.t) (s : MCPServer)
    (visit : list (string * Tool)) (req : JSONRPCRequest.t)
  : JSONRPCResponse.t :=
  let method := JSONRPCRequest.Method req in
  if String.eqb method "initialize" then
    resultResponse (JSONRPCRequest.ID req) initializeResult
  else if String.eqb method "tools/list" then
    let tools := fold_left (fun tools kv => (tools ++ [snd kv])%list) visit [] in
    resultResponse (JSONRPCRequest.ID req)
      (map_any {[ "tools" := slice_Tool tools ]})
  else if String.eqb method "tools/call" then
    (* the error of Unmarshal is dropped *)
    let params :=
      fst (json.Unmarshal callParams.store (JSONRPCRequest.Params req)
             callParams.zero) in
    let result :=
      executeTool rt s (callParams.Name params) (callParams.Arguments params) in
    resultResponse (JSONRPCRequest.ID req) result
  else
    methodNotFoundResponse (JSONRPCRequest.ID req).

Definition handleMCP (rt : runtime.t) (s : MCPServer)
    (visit : list (string * Tool)) (r : http.Request) : reply :=
  mkReply corsHeaders
    (if String.eqb (http.Method r) "OPTIONS" then
       WriteHeader http.StatusOK
     else if String.eqb (http.Method r) "GET" then
       Encode serverInfo
     else if negb (String.eqb (http.Method r) "POST") then
       HTTPError "Method not allowed" http.StatusMethodNotAllowed
     else
       match http.Body r with
       | None => HTTPError "Failed to read body" http.StatusBadRequest
       | Some body =>
         match json.Unmarshal JSONRPCRequest.store body JSONRPCRequest.zero with
         | (_, Some _) => EncodeResponse parseErrorResponse
         | (req, None) => EncodeResponse (dispatch rt s visit req)
         end
       end).

(** A POST carrying [body]. *)
Definition post (body : string) : http.Request :=
  {| http.Method := "POST"; http.Body := Some body |}.

(** A request body is well formed when the envelope decodes without
    error; [req] is the decoded envelope. *)
Definition wellFormed (body : string) (req : JSONRPCRequest.t) : Prop :=
  json.Unmarshal JSONRPCRequest.store body JSONRPCRequest.zero = (req, None).

(** A host and an iteration order to run examples with. *)
Definition exampleHost : runtime.t := runtime.mk "linux" "amd64" "go1.21.0" 4.
Definition exampleVisit : list (string * Tool) :=
  [("system_info", system_info_tool); ("echo", echo_tool)].

(** The input schema of [t] lists [field] under ["required"]. *)
Definition requires (t : Tool) (field : string) : Prop :=
  ∃ schema required,
    InputSchema t = map_any schema
    ∧ schema !! "required" = Some (slice_string required)
    ∧ field ∈ required.

(** The member [m] is selected by the field name [name] and holds a
    string. *)
Definition holdsString (name : string) (m : string * string * json.value)
  : bool :=
  let '(key, _, v) := m in
  json.fieldIs name key
  && match v with json.Str _ => true | _ => false end.

(** The value [v] is an object with such a member. *)
Definition hasStringMember (name : string) (v : json.value) : bool :=
  match v with
  | json.Object members => existsb (holdsString name) members
  | _ => false
  end.

(** ** [main]: the port and the listening address *)

Module os.

(** The environment; [Getenv] gives the empty string for a variable
    that is not set. *)
Definition Getenv (env : gmap string string) (key : string) : string :=
  default "" (env !! key).

End os.

(** [port], as [main] computes it. *)
Definition mainPort (env : gmap string string) : string :=
  let port := os.Getenv env "PORT" in
  if String.eqb port "" then "8080" else port.

(** The address given to [http.ListenAndServe]. *)
Definition mainAddr (env : gmap string string) : string :=
  ":" +:+ mainPort env.

(** ** What decoding keeps of an object *)

(** The string held by the last member of [members] that is selected by
    [name] and holds a string. *)
Fixpoint lastString (name : string)
    (members : list (string * string * json.value)) : option string :=
  match members with
  | [] => None
  | (key, _, v) :: rest =>
    match lastString name rest with
    | Some s => Some s
    | None =>
      if json.fieldIs name key
      then match v with json.Str s => Some s | _ => None end
      else None
    end
  end.

(** The bytes and the value of the last member of [members] that is
    selected by [name]. *)
Fixpoint lastMember (name : string)
    (members : list (string * string * json.value))
  : option (string * json.value) :=
  match members with
  | [] => None
  | (key, raw, v) :: rest =>
    match lastMember name rest with
    | Some m => Some m
    | None => if json.fieldIs name key then Some (raw, v) else None
    end
  end.

(** The members of an object; nothing for any other value. *)
Definition membersOf (v : option json.value)
  : list (string * string * json.value) :=
  match v with
  | Some (json.Object members) => members
  | _ => []
  end.

(** The Go value that the identifier of a request object decodes to: the
    value built from the last member named [id], nil without one. *)
Definition decodedID (members : list (string * string * json.value)) : any :=
  match lastMember "id" members with
  | Some (_, v) => (json.valueInterface v).1
  | None => nil_
  end.

(** ** Reading a value again from its own bytes *)

(** [q] is a prefix of [r]. *)
Definition prefixOf (q r : string) : Prop := ∃ q', r = q +:+ q'.

(** A scanner that reads a prefix [p] of its input and looks at most at
    what follows [p]: cutting the input anywhere after [p] does not
    change what it reads. *)
Definition truncates {A : Type} (f : string → option (A * string)) : Prop :=
  ∀ s x r, f s = Some (x, r) →
    ∃ p, s = p +:+ r ∧ ∀ q, prefixOf q r → f (p +:+ q) = Some (x, q).

(** A [tools/call] request and its tree, to run examples with. *)
Definition exampleCall : string :=
  js "{'method':'tools/call','params':{'name':'echo','arguments':{'message':'a','message':'b'}}}".

Definition exampleCallMembers : list (string * string * json.value) :=
  [("method", js "'tools/call'", json.Str "tools/call");
   ("params", js "{'name':'echo','arguments':{'message':'a','message':'b'}}",
    json.Object
      [("name", js "'echo'", json.Str "echo");
       ("arguments", js "{'message':'a','message':'b'}",
        json.Object
          [("message", js "'a'", json.Str "a");
           ("message", js "'b'", json.Str "b")])])].

Definition exampleCallRequest : JSONRPCRequest.t :=
  JSONRPCRequest.mk "" nil_ "tools/call"
    (js "{'name':'echo','arguments':{'message':'a','message':'b'}}").

(** ** The library model on examples *)

Example ParseFloat_one :
  strconv.ParseFloat "1" = Some (S754_finite false 4503599627370496 (-52)).
Proof. vm_compute. reflexivity. Qed.

Example ParseFloat_tenth :
  strconv.ParseFloat "0.1" = Some (S754_finite false 7205759403792794 (-56)).
Proof. vm_compute. reflexivity. Qed.

Example ParseFloat_ties_to_even :
  strconv.ParseFloat "9007199254740993" = strconv.ParseFloat "9007199254740992".
Proof. vm_compute. reflexivity. Qed.

Example ParseFloat_out_of_range : strconv.ParseFloat "1e400" = None.
Proof. vm_compute. reflexivity. Qed.

Example ParseFloat_underflow :
  strconv.ParseFloat "1e-400" = Some (S754_zero false).
Proof. vm_compute. reflexivity. Qed.

Example unquote_escapes :
  json.unquote "a\u0041\/\ud83d\ude00\ud83d" = "aA/😀�".
Proof. vm_compute. reflexivity. Qed.

Example parse_rejects :
  forallb (fun data => negb (json.Valid (js data)))
    [""; "nul"; "01"; "1."; "[1,]"; "{'a':1,}"; "{a:1}"; "'a"; "1 2"; "+1"]
  = true.
Proof. vm_compute. reflexivity. Qed.

Example parse_object :
  json.parse (js " {'a' : [1, true, null], 'b':'x'} ")
  = Some (json.Object
            [("a", "[1, true, null]",
              json.Array [json.Number "1"; json.Bool true; json.Null]);
             ("b", js "'x'", json.Str "x")]).
Proof. vm_compute. reflexivity. Qed.

Example fieldIs_folds :
  json.fieldIs "message" "MeSSage" = true
  ∧ json.fieldIs "message" "meſsage" = true
  ∧ json.fieldIs "message" "messages" = false.
Proof. vm_compute. done. Qed.

Example Unmarshal_null_body :
  json.Unmarshal JSONRPCRequest.store "null" JSONRPCRequest.zero
  = (JSONRPCRequest.zero, None).
Proof. vm_compute. reflexivity. Qed.

Example Unmarshal_method_of_wrong_type :
  json.Unmarshal JSONRPCRequest.store (js "{'id':7,'method':5}")
    JSONRPCRequest.zero
  = (JSONRPCRequest.mk ""
       (float64_ (S754_finite false 7881299347898368 (-50))) "" "",
     Some (json.UnmarshalTypeError "number")).
Proof. vm_compute. reflexivity. Qed.

Example executeTool_system_info :
  executeTool exampleHost server "system_info" ""
  = textContent
      ("OS: linux" +:+ String "010"
         ("Arch: amd64" +:+ String "010"
            ("Go Version: go1.21.0" +:+ String "010" "CPUs: 4"))).
Proof. vm_compute. reflexivity. Qed.

(** ** The scanner's element bound is never reached *)

Local Abbreviation len := String.length.

Lemma skipSpace_length s : (len (json.skipSpace s) ≤ len s)%nat.
Proof.
  induction s as [|c t IH]; cbn; [done|].
  destruct (json.isSpace c); cbn; lia.
Qed.

Lemma scanString_shrinks n :
  ∀ s body r, (len s ≤ n)%nat →
    json.scanString s = Some (body, r) → (len r < len s)%nat.
Proof.
  induction n as [|n IH]; intros s body r Hn.
  - destruct s; [discriminate | cbn in Hn; lia].
  - destruct s as [|c t]; [discriminate|]. cbn [json.scanString].
    cbn in Hn.
    destruct (Ascii.eqb c dquote); [intros [= <- <-]; cbn; lia|].
    destruct (Ascii.eqb c "\").
    + destruct t as [|e t']; [discriminate|].
      destruct (json.isEscape e).
      * destruct (json.scanString t') as [[b' r']|] eqn:Hs; [|discriminate].
        intros [= <- <-]. apply IH in Hs; cbn in *; lia.
      * destruct (Ascii.eqb e "u"); [|discriminate].
        destruct t' as [|h1 [|h2 [|h3 [|h4 t'']]]]; try discriminate.
        destruct (_ && _); [|discriminate].
        destruct (json.scanString t'') as [[b' r']|] eqn:Hs; [|discriminate].
        intros [= <- <-]. apply IH in Hs; cbn in *; lia.
    + destruct (_ <? _)%N; [discriminate|].
      destruct (json.scanString t) as [[b' r']|] eqn:Hs; [|discriminate].
      intros [= <- <-]. apply IH in Hs; cbn in *; lia.
Qed.

Lemma spanDigits_length s : (len (json.spanDigits s).2 ≤ len s)%nat.
Proof.
  induction s as [|c t IH]; cbn; [done|].
  destruct (strconv.isDigit c); [|cbn; lia].
  destruct (json.spanDigits t); cbn in *; lia.
Qed.

Lemma optByte_length p s : (len (json.optByte p s).2 ≤ len s)%nat.
Proof. destruct s as [|c t]; cbn; [done|]. destruct (p c); cbn; lia. Qed.

Lemma scanInt_shrinks s int r :
  json.scanInt s = Some (int, r) → (len r < len s)%nat.
Proof.
  destruct s as [|c t]; cbn; [discriminate|].
  destruct (Ascii.eqb c "0"); [intros [= <- <-]; lia|].
  destruct (between 49 57 c); [|discriminate].
  pose proof (spanDigits_length t). destruct (json.spanDigits t).
  intros [= <- <-]. cbn in *. lia.
Qed.

Lemma scanFrac_length s frac r :
  json.scanFrac s = Some (frac, r) → (len r ≤ len s)%nat.
Proof.
  destruct s as [|c t]; cbn; [by intros [= <- <-]|].
  destruct (Ascii.eqb c "."); [|by intros [= <- <-]].
  pose proof (spanDigits_length t). destruct (json.spanDigits t) as [[|] ?];
    [discriminate|]. intros [= <- <-]. cbn in *. lia.
Qed.

Lemma scanExp_length s exp r :
  json.scanExp s = Some (exp, r) → (len r ≤ len s)%nat.
Proof.
  destruct s as [|c t]; cbn; [by intros [= <- <-]|].
  destruct (_ || _); [|by intros [= <- <-]].
  pose proof (optByte_length
    (fun g => Ascii.eqb g "+"%char || Ascii.eqb g "-"%char) t) as Ho.
  destruct (json.optByte _ t) as [sg t'].
  pose proof (spanDigits_length t'). destruct (json.spanDigits t') as [[|] ?];
    [discriminate|]. intros [= <- <-]. cbn in *. lia.
Qed.

Lemma scanNumber_shrinks s lit r :
  json.scanNumber s = Some (lit, r) → (len r < len s)%nat.
Proof.
  unfold json.scanNumber.
  pose proof (optByte_length (Ascii.eqb "-"%char) s) as Ho.
  destruct (json.optByte _ s) as [sign s1].
  destruct (json.scanInt s1) as [[int s2]|] eqn:Hi; [|discriminate].
  destruct (json.scanFrac s2) as [[frac s3]|] eqn:Hf; [|discriminate].
  destruct (json.scanExp s3) as [[exp s4]|] eqn:He; [|discriminate].
  intros [= <- <-].
  apply scanInt_shrinks in Hi. apply scanFrac_length in Hf.
  apply scanExp_length in He. cbn in *. lia.
Qed.

Lemma hasPrefix_drop lit s :
  json.hasPrefix lit s = true →
  (len (drop_bytes (len lit) s) + len lit = len s)%nat.
Proof.
  revert s. induction lit as [|c lit IH]; intros s; cbn.
  - destruct s; cbn; lia.
  - destruct s as [|c' s]; [discriminate|].
    destruct (Ascii.eqb c c'); [|discriminate].
    intros H. apply IH in H. cbn. lia.
Qed.

Lemma literal_shrinks lit v s v' r :
  lit ≠ "" → json.literal lit v s = Some (v', r) → (len r < len s)%nat.
Proof.
  unfold json.literal. intros Hne.
  destruct (json.hasPrefix lit s) eqn:Hp; [|discriminate].
  intros [= <- <-]. apply hasPrefix_drop in Hp.
  destruct lit; [done|]. cbn in *. lia.
Qed.

Section nested.

Variable parseNested : string → option (json.value * string).
Hypothesis parseNested_shrinks :
  ∀ s v r, parseNested s = Some (v, r) → (len r < len s)%nat.

Lemma parseElems_shrinks n :
  ∀ s vs r, json.parseElems parseNested n s = Some (vs, r) →
    (len r < len s)%nat.
Proof.
  induction n as [|n IH]; intros s vs r; cbn; [discriminate|].
  destruct (parseNested s) as [[v r1]|] eqn:Hv; [|discriminate].
  apply parseNested_shrinks in Hv.
  pose proof (skipSpace_length r1) as Hs1.
  destruct (json.skipSpace r1) as [|c r2]; [discriminate|].
  destruct (Ascii.eqb c ","%char).
  - pose proof (skipSpace_length r2) as Hs2.
    destruct (json.parseElems _ n _) as [[vs' r3]|] eqn:He; [|discriminate].
    apply IH in He. intros [= <- <-]. cbn in *. lia.
  - destruct (Ascii.eqb c "]"%char); [|discriminate].
    intros [= <- <-]. cbn in *. lia.
Qed.

Lemma parseMembers_shrinks n :
  ∀ s ms r, json.parseMembers parseNested n s = Some (ms, r) →
    (len r < len s)%nat.
Proof.
  induction n as [|n IH]; intros s ms r; cbn; [discriminate|].
  destruct s as [|q t]; [discriminate|].
  destruct (Ascii.eqb q dquote); [|discriminate].
  destruct (json.scanString t) as [[key r0]|] eqn:Hk; [|discriminate].
  apply (scanString_shrinks _ _ _ _ (le_n _)) in Hk.
  pose proof (skipSpace_length r0) as Hs0.
  destruct (json.skipSpace r0) as [|c r1]; [discriminate|].
  destruct (Ascii.eqb c ":"%char); [|discriminate].
  pose proof (skipSpace_length r1) as Hs1.
  destruct (parseNested (json.skipSpace r1)) as [[v r2]|] eqn:Hv;
    [|discriminate].
  apply parseNested_shrinks in Hv.
  pose proof (skipSpace_length r2) as Hs2.
  destruct (json.skipSpace r2) as [|c' r3]; [discriminate|].
  destruct (Ascii.eqb c' ","%char).
  - pose proof (skipSpace_length r3) as Hs3.
    destruct (json.parseMembers _ n _) as [[ms' r4]|] eqn:He; [|discriminate].
    apply IH in He. intros [= <- <-]. cbn in *. lia.
  - destruct (Ascii.eqb c' "}"%char); [|discriminate].
    intros [= <- <-]. cbn in *. lia.
Qed.

Lemma parseArray_shrinks s v r :
  json.parseArray parseNested s = Some (v, r) → (len r < len s)%nat.
Proof.
  unfold json.parseArray. pose proof (skipSpace_length s) as Hs.
  destruct (json.skipSpace s) as [|c t]; [discriminate|].
  destruct (Ascii.eqb c "]"%char); [intros [= <- <-]; cbn in *; lia|].
  destruct (json.parseElems _ _ _) as [[vs r']|] eqn:He; [|discriminate].
  apply parseElems_shrinks in He. intros [= <- <-]. lia.
Qed.

Lemma parseObject_shrinks s v r :
  json.parseObject parseNested s = Some (v, r) → (len r < len s)%nat.
Proof.
  unfold json.parseObject. pose proof (skipSpace_length s) as Hs.
  destruct (json.skipSpace s) as [|c t]; [discriminate|].
  destruct (Ascii.eqb c "}"%char); [intros [= <- <-]; cbn in *; lia|].
  destruct (json.parseMembers _ _ _) as [[ms r']|] eqn:He; [|discriminate].
  apply parseMembers_shrinks in He. intros [= <- <-]. lia.
Qed.

(** More than one unit of fuel per byte is never used. *)
Lemma parseElems_fuel n :
  ∀ m s, (len s ≤ n)%nat → (len s ≤ m)%nat →
    json.parseElems parseNested m s = json.parseElems parseNested n s.
Proof.
  assert (Hempty : ∀ k, json.parseElems parseNested k "" = None).
  { intros [|k]; cbn; [done|].
    destruct (parseNested "") as [[v r]|] eqn:Hv; [|done].
    apply parseNested_shrinks in Hv. cbn in Hv. lia. }
  induction n as [|n IH]; intros m s Hn Hm.
  - destruct s; [by rewrite !Hempty | cbn in Hn; lia].
  - destruct m as [|m].
    { destruct s; [by rewrite !Hempty | cbn in Hm; lia]. }
    cbn. destruct (parseNested s) as [[v r1]|] eqn:Hv; [|done].
    apply parseNested_shrinks in Hv.
    pose proof (skipSpace_length r1) as Hs1.
    destruct (json.skipSpace r1) as [|c r2]; [done|].
    destruct (Ascii.eqb c ","%char); [|done].
    pose proof (skipSpace_length r2) as Hs2.
    rewrite (IH m); [done | cbn in *; lia ..].
Qed.

Lemma parseMembers_fuel n :
  ∀ m s, (len s ≤ n)%nat → (len s ≤ m)%nat →
    json.parseMembers parseNested m s = json.parseMembers parseNested n s.
Proof.
  assert (Hempty : ∀ k, json.parseMembers parseNested k "" = None).
  { by intros [|k]. }
  induction n as [|n IH]; intros m s Hn Hm.
  - destruct s; [by rewrite !Hempty | cbn in Hn; lia].
  - destruct m as [|m].
    { destruct s; [by rewrite !Hempty | cbn in Hm; lia]. }
    cbn. destruct s as [|q t]; [done|].
    destruct (Ascii.eqb q dquote); [|done].
    destruct (json.scanString t) as [[key r0]|] eqn:Hk; [|done].
    apply (scanString_shrinks _ _ _ _ (le_n _)) in Hk.
    pose proof (skipSpace_length r0) as Hs0.
    destruct (json.skipSpace r0) as [|c r1]; [done|].
    destruct (Ascii.eqb c ":"%char); [|done].
    pose proof (skipSpace_length r1) as Hs1.
    destruct (parseNested (json.skipSpace r1)) as [[v r2]|] eqn:Hv; [|done].
    apply parseNested_shrinks in Hv.
    pose proof (skipSpace_length r2) as Hs2.
    destruct (json.skipSpace r2) as [|c' r3]; [done|].
    destruct (Ascii.eqb c' ","%char); [|done].
    pose proof (skipSpace_length r3) as Hs3.
    rewrite (IH m); [done | cbn in *; lia ..].
Qed.

End nested.

Lemma parseValue_shrinks depth :
  ∀ s v r, json.parseValue depth s = Some (v, r) → (len r < len s)%nat.
Proof.
  induction depth as [|d IH]; intros s v r; destruct s as [|c t];
    try discriminate; cbn [json.parseValue].
  all: destruct (Ascii.eqb c "{"%char);
    [first [discriminate
           | intros H; apply parseObject_shrinks in H; [cbn; lia | done]]|].
  all: destruct (Ascii.eqb c "["%char);
    [first [discriminate
           | intros H; apply parseArray_shrinks in H; [cbn; lia | done]]|].
  all: destruct (Ascii.eqb c dquote);
    [destruct (json.scanString t) as [[body r']|] eqn:Hs; [|discriminate];
     apply (scanString_shrinks _ _ _ _ (le_n _)) in Hs;
     intros [= <- <-]; cbn; lia|].
  all: repeat (destruct (Ascii.eqb c _);
    [intros H; by apply literal_shrinks in H|]).
  all: destruct (_ || _); [|discriminate].
  all: destruct (json.scanNumber _) as [[lit r']|] eqn:Hn; [|discriminate].
  all: apply scanNumber_shrinks in Hn; by intros [= <- <-].
Qed.

(** The bound on the elements of an array, and on the members of an
    object, is never what stops the scanner. *)
Lemma parseElems_enough depth n s :
  (len s ≤ n)%nat →
  json.parseElems (json.parseValue depth) n s
  = json.parseElems (json.parseValue depth) (len s) s.
Proof.
  intros Hn. by apply parseElems_fuel; [apply parseValue_shrinks | |].
Qed.

Lemma parseMembers_enough depth n s :
  (len s ≤ n)%nat →
  json.parseMembers (json.parseValue depth) n s
  = json.parseMembers (json.parseValue depth) (len s) s.
Proof.
  intros Hn. by apply parseMembers_fuel; [apply parseValue_shrinks | |].
Qed.

(** ** The handler, path by path *)

Section paths.

Variables (rt : runtime.t) (s : MCPServer) (visit : list (string * Tool)).

Lemma handleMCP_wellFormed body req :
  wellFormed body req →
  Out (handleMCP rt s visit (post body))
  = EncodeResponse (dispatch rt s visit req).
Proof.
  unfold wellFormed, handleMCP, post. cbn. intros ->. reflexivity.
Qed.

Lemma handleMCP_decode_error body req e :
  json.Unmarshal JSONRPCRequest.store body JSONRPCRequest.zero
  = (req, Some e) →
  Out (handleMCP rt s visit (post body)) = EncodeResponse parseErrorResponse.
Proof.
  unfold handleMCP, post. cbn. intros ->. reflexivity.
Qed.

Lemma Unmarshal_invalid {T} (store : json.value → T → T * option json.error)
    data (t : T) :
  json.Valid data = false →
  json.Unmarshal store data t = (t, Some json.SyntaxError).
Proof.
  unfold json.Valid, json.Unmarshal.
  destruct (json.parse data); [discriminate | reflexivity].
Qed.

Lemma dispatch_initialize req :
  JSONRPCRequest.Method req = "initialize" →
  dispatch rt s visit req
  = resultResponse (JSONRPCRequest.ID req) initializeResult.
Proof. unfold dispatch. intros ->. reflexivity. Qed.

Lemma collect_tools (l : list (string * Tool)) (acc : list Tool) :
  fold_left (fun tools kv => (tools ++ [snd kv])%list) l acc
  = (acc ++ l.*2)%list.
Proof.
  revert acc. induction l as [|kv l IH]; intros acc; cbn.
  - by rewrite app_nil_r.
  - rewrite IH, <- app_assoc. reflexivity.
Qed.

Lemma dispatch_tools_list req :
  JSONRPCRequest.Method req = "tools/list" →
  dispatch rt s visit req
  = resultResponse (JSONRPCRequest.ID req)
      (map_any {[ "tools" := slice_Tool (visit.*2) ]}).
Proof.
  unfold dispatch. intros ->. cbn. by rewrite collect_tools.
Qed.

Lemma dispatch_tools_call req :
  JSONRPCRequest.Method req = "tools/call" →
  dispatch rt s visit req
  = let params :=
      fst (json.Unmarshal callParams.store (JSONRPCRequest.Params req)
             callParams.zero) in
    resultResponse (JSONRPCRequest.ID req)
      (executeTool rt s (callParams.Name params)
         (callParams.Arguments params)).
Proof. unfold dispatch. intros ->. reflexivity. Qed.

Lemma dispatch_default req :
  JSONRPCRequest.Method req ≠ "initialize" →
  JSONRPCRequest.Method req ≠ "tools/list" →
  JSONRPCRequest.Method req ≠ "tools/call" →
  dispatch rt s visit req = methodNotFoundResponse (JSONRPCRequest.ID req).
Proof.
  unfold dispatch. intros H1 H2 H3.
  apply String.eqb_neq in H1, H2, H3. by rewrite H1, H2, H3.
Qed.

(** The four ways [dispatch] can answer. *)
Lemma dispatch_cases req :
  (∃ result, result ≠ nil_
     ∧ dispatch rt s visit req
       = resultResponse (JSONRPCRequest.ID req) result)
  ∨ dispatch rt s visit req = methodNotFoundResponse (JSONRPCRequest.ID req).
Proof.
  unfold dispatch.
  destruct (String.eqb _ "initialize"); [left; eexists; split; [|done]; done|].
  destruct (String.eqb _ "tools/list"); [left; eexists; split; [|done]; done|].
  destruct (String.eqb _ "tools/call"); [left|by right].
  eexists; split; [|done].
  unfold executeTool, textContent.
  destruct (String.eqb _ "system_info"); [done|].
  destruct (String.eqb _ "echo"); done.
Qed.

Lemma executeTool_echo name args :
  name = "echo" →
  executeTool rt s name args
  = textContent
      ("Echo: " +:+ echoParams.Message
         (fst (json.Unmarshal echoParams.store args echoParams.zero))).
Proof. intros ->. reflexivity. Qed.

Lemma executeTool_unknown name args :
  name ≠ "system_info" → name ≠ "echo" →
  executeTool rt s name args = map_any {[ "error" := string_ "Unknown tool" ]}.
Proof.
  unfold executeTool. intros H1 H2.
  apply String.eqb_neq in H1, H2. by rewrite H1, H2.
Qed.

End paths.

(** ** Properties of the dispatcher *)

(** C2: a body that is not valid JSON, and more generally any body whose
    envelope fails to decode, is answered with the parse error -32700
    and a nil identifier; the answer depends on nothing but that
    failure (the method switch is not reached). *)
Theorem malformed_body_parse_error rt s visit body :
  json.Valid body = false
  ∨ is_Some (snd (json.Unmarshal JSONRPCRequest.store body
                    JSONRPCRequest.zero)) →
  Out (handleMCP rt s visit (post body))
  = EncodeResponse
      {| JSONRPCResponse.JSONRPC := "2.0";
         JSONRPCResponse.ID := nil_;
         JSONRPCResponse.Result := nil_;
         JSONRPCResponse.Error :=
           Some {| JSONRPCError.Code := -32700;
                   JSONRPCError.Message := "Parse error";
                   JSONRPCError.Data := nil_ |} |}.
Proof.
  intros [Hinv | [e He]].
  - eapply handleMCP_decode_error. by apply Unmarshal_invalid.
  - destruct (json.Unmarshal JSONRPCRequest.store body JSONRPCRequest.zero)
      as [req oe] eqn:Hd.
    cbn in He. subst oe. by eapply handleMCP_decode_error.
Qed.

Lemma malformed_body_parse_error_witness :
  Out (handleMCP exampleHost server exampleVisit
         (post (js "{'jsonrpc':'2.0','id':1,'method':")))
  = EncodeResponse parseErrorResponse.
Proof.
  apply (malformed_body_parse_error exampleHost server exampleVisit
           (js "{'jsonrpc':'2.0','id':1,'method':")).
  left. vm_compute. reflexivity.
Defined.

(** C3: a well-formed request whose method is none of [initialize],
    [tools/list], [tools/call] is answered with the error -32601 and the
    identifier of the request. *)
Theorem unknown_method_not_found rt s visit body req :
  wellFormed body req →
  JSONRPCRequest.Method req ≠ "initialize" →
  JSONRPCRequest.Method req ≠ "tools/list" →
  JSONRPCRequest.Method req ≠ "tools/call" →
  Out (handleMCP rt s visit (post body))
  = EncodeResponse
      {| JSONRPCResponse.JSONRPC := "2.0";
         JSONRPCResponse.ID := JSONRPCRequest.ID req;
         JSONRPCResponse.Result := nil_;
         JSONRPCResponse.Error :=
           Some {| JSONRPCError.Code := -32601;
                   JSONRPCError.Message := "Method not found";
                   JSONRPCError.Data := nil_ |} |}.
Proof.
  intros Hwf H1 H2 H3.
  rewrite (handleMCP_wellFormed _ _ _ _ _ Hwf).
  by rewrite dispatch_default.
Qed.

Lemma unknown_method_not_found_witness :
  Out (handleMCP exampleHost server exampleVisit
         (post (js "{'jsonrpc':'2.0','id':'r-7','method':'does-not-exist'}")))
  = EncodeResponse (methodNotFoundResponse (string_ "r-7")).
Proof.
  apply (unknown_method_not_found exampleHost server exampleVisit
           (js "{'jsonrpc':'2.0','id':'r-7','method':'does-not-exist'}")
           (JSONRPCRequest.mk "2.0" (string_ "r-7") "does-not-exist" ""));
    [vm_compute; reflexivity | discriminate ..].
Defined.

(** C4: a [tools/call] naming a tool that is not in the registry is
    answered with a result envelope, with no error object, whose result
    is the map [{"error": "Unknown tool"}]. *)
Theorem unknown_tool_in_band rt visit body req :
  wellFormed body req →
  JSONRPCRequest.Method req = "tools/call" →
  tools server
    !! callParams.Name
         (fst (json.Unmarshal callParams.store (JSONRPCRequest.Params req)
                 callParams.zero)) = None →
  Out (handleMCP rt server visit (post body))
  = EncodeResponse
      {| JSONRPCResponse.JSONRPC := "2.0";
         JSONRPCResponse.ID := JSONRPCRequest.ID req;
         JSONRPCResponse.Result :=
           map_any {[ "error" := string_ "Unknown tool" ]};
         JSONRPCResponse.Error := None |}.
Proof.
  intros Hwf Hm Hnone.
  rewrite (handleMCP_wellFormed _ _ _ _ _ Hwf), dispatch_tools_call by done.
  cbn zeta. unfold server, setupTools in Hnone. cbn [tools] in Hnone.
  apply lookup_insert_None in Hnone as [Hnone Hecho].
  apply lookup_insert_None in Hnone as [_ Hinfo].
  by rewrite executeTool_unknown.
Qed.

Lemma unknown_tool_in_band_witness :
  Out (handleMCP exampleHost server exampleVisit
         (post (js "{'jsonrpc':'2.0','id':3,'method':'tools/call','params':{'name':'bogus','arguments':{}}}")))
  = EncodeResponse
      (resultResponse (float64_ (S754_finite false 6755399441055744 (-51)))
         (map_any {[ "error" := string_ "Unknown tool" ]})).
Proof.
  apply (unknown_tool_in_band exampleHost exampleVisit
           (js "{'jsonrpc':'2.0','id':3,'method':'tools/call','params':{'name':'bogus','arguments':{}}}")
           (JSONRPCRequest.mk "2.0"
              (float64_ (S754_finite false 6755399441055744 (-51)))
              "tools/call" (js "{'name':'bogus','arguments':{}}")));
    vm_compute; reflexivity.
Defined.

(** C5: [initialize] always succeeds: the envelope carries a result and
    no error, and the result holds the protocol version "2024-11-05" and
    a [serverInfo] whose [name] is "Go MCP Server". *)
Theorem initialize_succeeds rt s visit body req :
  wellFormed body req →
  JSONRPCRequest.Method req = "initialize" →
  ∃ result info,
    Out (handleMCP rt s visit (post body))
    = EncodeResponse
        {| JSONRPCResponse.JSONRPC := "2.0";
           JSONRPCResponse.ID := JSONRPCRequest.ID req;
           JSONRPCResponse.Result := map_any result;
           JSONRPCResponse.Error := None |}
    ∧ result !! "protocolVersion" = Some (string_ "2024-11-05")
    ∧ result !! "serverInfo" = Some (map_any info)
    ∧ info !! "name" = Some (string_ "Go MCP Server").
Proof.
  intros Hwf Hm.
  rewrite (handleMCP_wellFormed _ _ _ _ _ Hwf), dispatch_initialize by done.
  unfold initializeResult, resultResponse.
  eexists _, _. split; [reflexivity|]. by vm_compute.
Qed.

Lemma initialize_succeeds_witness :
  ∃ result info,
    Out (handleMCP exampleHost server exampleVisit
           (post (js "{'jsonrpc':'2.0','id':'a','method':'initialize'}")))
    = EncodeResponse
        {| JSONRPCResponse.JSONRPC := "2.0";
           JSONRPCResponse.ID := string_ "a";
           JSONRPCResponse.Result := map_any result;
           JSONRPCResponse.Error := None |}
    ∧ result !! "protocolVersion" = Some (string_ "2024-11-05")
    ∧ result !! "serverInfo" = Some (map_any info)
    ∧ info !! "name" = Some (string_ "Go MCP Server").
Proof.
  apply (initialize_succeeds exampleHost server exampleVisit
           (js "{'jsonrpc':'2.0','id':'a','method':'initialize'}")
           (JSONRPCRequest.mk "2.0" (string_ "a") "initialize" ""));
    vm_compute; reflexivity.
Defined.

Lemma server_tools_list :
  map_to_list (tools server)
  ≡ₚ [("echo", echo_tool); ("system_info", system_info_tool)].
Proof.
  unfold server, setupTools, NewMCPServer. cbn [tools].
  rewrite map_to_list_insert by done.
  rewrite insert_empty, map_to_list_singleton. reflexivity.
Qed.

(** C6: [tools/list], served from the registry [main] sets up, returns
    the tools in the order the map was visited. Whatever that order, the
    sequence holds an entry named "echo" whose schema requires
    "message" and an entry named "system_info"; and each of the two
    orders of these entries is the answer under some visiting order. *)
Theorem tools_list_contents rt body req :
  wellFormed body req →
  JSONRPCRequest.Method req = "tools/list" →
  (∀ visit, rangeOrder (tools server) visit →
     ∃ ts,
       Out (handleMCP rt server visit (post body))
       = EncodeResponse
           {| JSONRPCResponse.JSONRPC := "2.0";
              JSONRPCResponse.ID := JSONRPCRequest.ID req;
              JSONRPCResponse.Result :=
                map_any {[ "tools" := slice_Tool ts ]};
              JSONRPCResponse.Error := None |}
       ∧ (∃ t, t ∈ ts ∧ Name t = "echo" ∧ requires t "message")
       ∧ (∃ t, t ∈ ts ∧ Name t = "system_info"))
  ∧ (∀ ts, ts ≡ₚ [echo_tool; system_info_tool] →
       ∃ visit, rangeOrder (tools server) visit
         ∧ Out (handleMCP rt server visit (post body))
           = EncodeResponse
               (resultResponse (JSONRPCRequest.ID req)
                  (map_any {[ "tools" := slice_Tool ts ]}))).
Proof.
  intros Hwf Hm. split.
  - intros visit Hvisit. exists (visit.*2).
    rewrite (handleMCP_wellFormed _ _ _ _ _ Hwf), dispatch_tools_list by done.
    split; [reflexivity|].
    assert (Hperm : visit.*2 ≡ₚ [echo_tool; system_info_tool]).
    { unfold rangeOrder in Hvisit.
      by rewrite Hvisit, server_tools_list. }
    split.
    + exists echo_tool. rewrite Hperm. split; [set_solver|].
      split; [done|]. eexists _, _. split; [reflexivity|].
      split; [by vm_compute | set_solver].
    + exists system_info_tool. rewrite Hperm. split; [set_solver | done].
  - intros ts Hts.
    apply Permutation_sym, Permutation_length_2_inv in Hts as [-> | ->].
    + exists [("echo", echo_tool); ("system_info", system_info_tool)].
      split; [unfold rangeOrder; by rewrite server_tools_list|].
      by rewrite (handleMCP_wellFormed _ _ _ _ _ Hwf), dispatch_tools_list.
    + exists [("system_info", system_info_tool); ("echo", echo_tool)].
      split.
      { unfold rangeOrder. rewrite server_tools_list. apply perm_swap. }
      by rewrite (handleMCP_wellFormed _ _ _ _ _ Hwf), dispatch_tools_list.
Qed.

Lemma tools_list_contents_witness :
  (∀ visit, rangeOrder (tools server) visit →
     ∃ ts,
       Out (handleMCP exampleHost server visit
              (post (js "{'jsonrpc':'2.0','id':null,'method':'tools/list'}")))
       = EncodeResponse
           {| JSONRPCResponse.JSONRPC := "2.0";
              JSONRPCResponse.ID := nil_;
              JSONRPCResponse.Result :=
                map_any {[ "tools" := slice_Tool ts ]};
              JSONRPCResponse.Error := None |}
       ∧ (∃ t, t ∈ ts ∧ Name t = "echo" ∧ requires t "message")
       ∧ (∃ t, t ∈ ts ∧ Name t = "system_info"))
  ∧ (∀ ts, ts ≡ₚ [echo_tool; system_info_tool] →
       ∃ visit, rangeOrder (tools server) visit
         ∧ Out (handleMCP exampleHost server visit
                  (post (js "{'jsonrpc':'2.0','id':null,'method':'tools/list'}")))
           = EncodeResponse
               (resultResponse nil_ (map_any {[ "tools" := slice_Tool ts ]}))).
Proof.
  apply (tools_list_contents exampleHost
           (js "{'jsonrpc':'2.0','id':null,'method':'tools/list'}")
           (JSONRPCRequest.mk "2.0" nil_ "tools/list" ""));
    vm_compute; reflexivity.
Defined.



(** C9: the only error objects the handler puts in an envelope have the
    codes -32700 and -32601. *)
Theorem protocol_error_codes rt s visit r resp e :
  Out (handleMCP rt s visit r) = EncodeResponse resp →
  JSONRPCResponse.Error resp = Some e →
  JSONRPCError.Code e = (-32700)%Z ∨ JSONRPCError.Code e = (-32601)%Z.
Proof.
  unfold handleMCP. cbn [Out].
  destruct (String.eqb _ "OPTIONS"); [discriminate|].
  destruct (String.eqb _ "GET"); [discriminate|].
  destruct (String.eqb _ "POST"); cbn [negb]; [|discriminate].
  destruct (http.Body r) as [body|]; [|discriminate].
  destruct (json.Unmarshal _ _ _) as [req [err|]].
  - intros [= <-] [= <-]. by left.
  - intros [= <-].
    destruct (dispatch_cases rt s visit req) as [(result & _ & ->) | ->].
    + discriminate.
    + intros [= <-]. by right.
Qed.

Lemma protocol_error_codes_witness :
  let e := JSONRPCError.mk (-32601) "Method not found" nil_ in
  JSONRPCError.Code e = (-32700)%Z ∨ JSONRPCError.Code e = (-32601)%Z.
Proof.
  apply (protocol_error_codes exampleHost server exampleVisit
           (post (js "{'jsonrpc':'2.0','id':1,'method':'resources/list'}"))
           (methodNotFoundResponse
              (float64_ (S754_finite false 4503599627370496 (-52))))
           (JSONRPCError.mk (-32601) "Method not found" nil_));
    vm_compute; reflexivity.
Defined.

(** ** Lenient decoding *)

Lemma storeString_keeps v cur :
  match v with json.Str _ => false | _ => true end = true →
  fst (json.storeString v cur) = cur.
Proof. by destruct v. Qed.

Lemma echoParams_members_keep members :
  existsb (holdsString "message") members = false →
  ∀ acc,
    echoParams.Message
      (fst (fold_left (json.storeMember echoParams.field) members acc))
    = echoParams.Message (fst acc).
Proof.
  induction members as [|[[key raw] v] members IH]; intros Hnone acc.
  - reflexivity.
  - cbn [existsb] in Hnone. apply orb_false_iff in Hnone as [Hm Hrest].
    cbn [fold_left]. rewrite (IH Hrest). destruct acc as [p e].
    unfold json.storeMember, echoParams.field. cbn [holdsString] in Hm.
    destruct (json.fieldIs "message" key); [|reflexivity].
    cbn [andb] in Hm.
    pose proof (storeString_keeps v (echoParams.Message p)) as Hk.
    destruct (json.storeString v (echoParams.Message p)) as [x e'].
    cbn in Hk |- *. apply Hk. by destruct v.
Qed.

Lemma callParams_members_keep members :
  existsb (holdsString "name") members = false →
  ∀ acc,
    callParams.Name
      (fst (fold_left (json.storeMember callParams.field) members acc))
    = callParams.Name (fst acc).
Proof.
  induction members as [|[[key raw] v] members IH]; intros Hnone acc.
  - reflexivity.
  - cbn [existsb] in Hnone. apply orb_false_iff in Hnone as [Hm Hrest].
    cbn [fold_left]. rewrite (IH Hrest). destruct acc as [p e].
    unfold json.storeMember, callParams.field. cbn [holdsString] in Hm.
    destruct (json.fieldIs "name" key).
    + cbn [andb] in Hm.
      pose proof (storeString_keeps v (callParams.Name p)) as Hk.
      destruct (json.storeString v (callParams.Name p)) as [x e'].
      cbn in Hk |- *. apply Hk. by destruct v.
    + by destruct (json.fieldIs "arguments" key).
Qed.

(** Decoding stores no message when the arguments are missing, are not
    valid JSON, or have no member named message that holds a string. *)
Lemma echoParams_unset args :
  args = ""
  ∨ json.Valid args = false
  ∨ (∃ v, json.parse args = Some v ∧ hasStringMember "message" v = false) →
  echoParams.Message (fst (json.Unmarshal echoParams.store args echoParams.zero))
  = "".
Proof.
  intros [-> | [Hinv | (v & Hparse & Hnone)]].
  - reflexivity.
  - by rewrite Unmarshal_invalid.
  - unfold json.Unmarshal. rewrite Hparse.
    unfold echoParams.store, json.storeStruct.
    destruct v; try reflexivity.
    by rewrite echoParams_members_keep.
Qed.

Lemma callParams_unset params :
  params = ""
  ∨ json.Valid params = false
  ∨ (∃ v, json.parse params = Some v ∧ hasStringMember "name" v = false) →
  callParams.Name (fst (json.Unmarshal callParams.store params callParams.zero))
  = "".
Proof.
  intros [-> | [Hinv | (v & Hparse & Hnone)]].
  - reflexivity.
  - by rewrite Unmarshal_invalid.
  - unfold json.Unmarshal. rewrite Hparse.
    unfold callParams.store, json.storeStruct.
    destruct v; try reflexivity.
    by rewrite callParams_members_keep.
Qed.

(** C8, as the code has it: a [tools/call] of "echo" whose arguments are
    missing, are not valid JSON, or have no member named message holding
    a string, is answered, whether or not decoding the arguments reports
    an error, with the single text entry "Echo: ". *)
Theorem echo_without_message rt s visit body req :
  wellFormed body req →
  JSONRPCRequest.Method req = "tools/call" →
  let params :=
    fst (json.Unmarshal callParams.store (JSONRPCRequest.Params req)
           callParams.zero) in
  callParams.Name params = "echo" →
  callParams.Arguments params = ""
  ∨ json.Valid (callParams.Arguments params) = false
  ∨ (∃ v, json.parse (callParams.Arguments params) = Some v
          ∧ hasStringMember "message" v = false) →
  Out (handleMCP rt s visit (post body))
  = EncodeResponse
      {| JSONRPCResponse.JSONRPC := "2.0";
         JSONRPCResponse.ID := JSONRPCRequest.ID req;
         JSONRPCResponse.Result :=
           map_any {[
             "content" := slice_map_any [
               {[ "type" := string_ "text"; "text" := string_ "Echo: " ]} ] ]};
         JSONRPCResponse.Error := None |}.
Proof.
  intros Hwf Hm params Hname Hargs.
  rewrite (handleMCP_wellFormed _ _ _ _ _ Hwf), dispatch_tools_call by done.
  cbn zeta. fold params. rewrite executeTool_echo by done.
  by rewrite echoParams_unset.
Qed.

Lemma echo_without_message_witness :
  Out (handleMCP exampleHost server exampleVisit
         (post (js "{'jsonrpc':'2.0','id':1,'method':'tools/call','params':{'name':'echo','arguments':{'message':5}}}")))
  = EncodeResponse
      (resultResponse (float64_ (S754_finite false 4503599627370496 (-52)))
         (textContent "Echo: ")).
Proof.
  apply (echo_without_message exampleHost server exampleVisit
           (js "{'jsonrpc':'2.0','id':1,'method':'tools/call','params':{'name':'echo','arguments':{'message':5}}}")
           (JSONRPCRequest.mk "2.0"
              (float64_ (S754_finite false 4503599627370496 (-52)))
              "tools/call" (js "{'name':'echo','arguments':{'message':5}}")));
    [vm_compute; reflexivity ..|].
  right; right.
  exists (json.Object [("message", "5", json.Number "5")]).
  split; vm_compute; reflexivity.
Defined.

(** C8 does not hold for every failure to decode: when the arguments
    repeat the member message, once with a string and once with a
    number, decoding reports a type error and the string is echoed. *)
Lemma echo_decode_error_keeps_message :
  let args := js "{'message':'hi','message':5}" in
  let body :=
    js "{'jsonrpc':'2.0','id':1,'method':'tools/call','params':{'name':'echo','arguments':{'message':'hi','message':5}}}" in
  let req :=
    JSONRPCRequest.mk "2.0"
      (float64_ (S754_finite false 4503599627370496 (-52))) "tools/call"
      (js "{'name':'echo','arguments':{'message':'hi','message':5}}") in
  let out := Out (handleMCP exampleHost server exampleVisit (post body)) in
  wellFormed body req
  ∧ json.Unmarshal callParams.store (JSONRPCRequest.Params req) callParams.zero
    = (callParams.mk "echo" args, None)
  ∧ json.Unmarshal echoParams.store args echoParams.zero
    = (echoParams.mk "hi", Some (json.UnmarshalTypeError "number"))
  ∧ out = EncodeResponse
            (resultResponse (JSONRPCRequest.ID req) (textContent "Echo: hi"))
  ∧ out ≠ EncodeResponse
            (resultResponse (JSONRPCRequest.ID req) (textContent "Echo: ")).
Proof.
  cbv zeta. repeat split; try (vm_compute; reflexivity).
  intros H. vm_compute in H. discriminate H.
Qed.

(** C10, as the code has it: a [tools/call] whose params are absent, are
    not valid JSON, or have no member named name holding a string, is
    answered, whether or not decoding the params reports an error, with
    the in-band error of an unknown tool; the tool name is the empty
    string. *)
Theorem params_without_name_unknown_tool rt s visit body req :
  wellFormed body req →
  JSONRPCRequest.Method req = "tools/call" →
  JSONRPCRequest.Params req = ""
  ∨ json.Valid (JSONRPCRequest.Params req) = false
  ∨ (∃ v, json.parse (JSONRPCRequest.Params req) = Some v
          ∧ hasStringMember "name" v = false) →
  callParams.Name
    (fst (json.Unmarshal callParams.store (JSONRPCRequest.Params req)
            callParams.zero)) = ""
  ∧ Out (handleMCP rt s visit (post body))
    = EncodeResponse
        {| JSONRPCResponse.JSONRPC := "2.0";
           JSONRPCResponse.ID := JSONRPCRequest.ID req;
           JSONRPCResponse.Result :=
             map_any {[ "error" := string_ "Unknown tool" ]};
           JSONRPCResponse.Error := None |}.
Proof.
  intros Hwf Hm Hparams.
  pose proof (callParams_unset _ Hparams) as Hname.
  split; [done|].
  rewrite (handleMCP_wellFormed _ _ _ _ _ Hwf), dispatch_tools_call by done.
  cbn zeta. rewrite Hname. by rewrite executeTool_unknown.
Qed.

Lemma params_without_name_unknown_tool_witness :
  callParams.Name
    (fst (json.Unmarshal callParams.store (js "['echo']") callParams.zero)) = ""
  ∧ Out (handleMCP exampleHost server exampleVisit
           (post (js "{'jsonrpc':'2.0','id':1,'method':'tools/call','params':['echo']}")))
    = EncodeResponse
        (resultResponse (float64_ (S754_finite false 4503599627370496 (-52)))
           (map_any {[ "error" := string_ "Unknown tool" ]})).
Proof.
  apply (params_without_name_unknown_tool exampleHost server exampleVisit
           (js "{'jsonrpc':'2.0','id':1,'method':'tools/call','params':['echo']}")
           (JSONRPCRequest.mk "2.0"
              (float64_ (S754_finite false 4503599627370496 (-52)))
              "tools/call" (js "['echo']")));
    [vm_compute; reflexivity ..|].
  right; right. exists (json.Array [json.Str "echo"]).
  split; vm_compute; reflexivity.
Defined.

(** C10 does not hold for every failure to decode: when the params
    repeat the member name, once with the string "echo" and once with a
    number, decoding reports a type error and the echo tool runs. *)
Lemma params_decode_error_keeps_name :
  let params := js "{'name':'echo','name':5}" in
  let body :=
    js "{'jsonrpc':'2.0','id':1,'method':'tools/call','params':{'name':'echo','name':5}}" in
  let req :=
    JSONRPCRequest.mk "2.0"
      (float64_ (S754_finite false 4503599627370496 (-52))) "tools/call"
      params in
  let out := Out (handleMCP exampleHost server exampleVisit (post body)) in
  wellFormed body req
  ∧ json.Unmarshal callParams.store params callParams.zero
    = (callParams.mk "echo" "", Some (json.UnmarshalTypeError "number"))
  ∧ out = EncodeResponse
            (resultResponse (JSONRPCRequest.ID req) (textContent "Echo: "))
  ∧ out ≠ EncodeResponse
            (resultResponse (JSONRPCRequest.ID req)
               (map_any {[ "error" := string_ "Unknown tool" ]})).
Proof.
  cbv zeta. repeat split; try (vm_compute; reflexivity).
  intros H. vm_compute in H. discriminate H.
Qed.
(** ** The paths of the handler that answer no envelope *)

(** X1: the handler writes a JSON-RPC envelope exactly for a POST whose
    body could be read. OPTIONS is answered with status 200 alone and
    GET with the server description, whatever the body; any other
    method with 405; a POST whose body cannot be read with 400. *)
Theorem http_method_gate rt s visit r :
  let out := Out (handleMCP rt s visit r) in
  ((∃ resp, out = EncodeResponse resp)
   ↔ http.Method r = "POST" ∧ is_Some (http.Body r))
  ∧ (http.Method r = "OPTIONS" → out = WriteHeader 200)
  ∧ (http.Method r = "GET" → out = Encode serverInfo)
  ∧ (http.Method r ≠ "OPTIONS" → http.Method r ≠ "GET" →
     http.Method r ≠ "POST" → out = HTTPError "Method not allowed" 405)
  ∧ (http.Method r = "POST" → http.Body r = None →
     out = HTTPError "Failed to read body" 400).
Proof.
  unfold handleMCP. cbn [Out].
  destruct (String.eqb_spec (http.Method r) "OPTIONS") as [Ho|Ho].
  { rewrite Ho. split_and!; try done.
    split; [by intros [? ?] | by intros [? _]]. }
  destruct (String.eqb_spec (http.Method r) "GET") as [Hg|Hg].
  { rewrite Hg. split_and!; try done.
    split; [by intros [? ?] | by intros [? _]]. }
  destruct (String.eqb_spec (http.Method r) "POST") as [Hp|Hp]; cbn [negb].
  2: { split_and!; try done. split; [by intros [? ?] | by intros [? _]]. }
  destruct (http.Body r) as [body|].
  - split_and!; try done. split; [by eauto|]. intros _.
    destruct (json.Unmarshal _ _ _) as [req [e|]]; eauto.
  - split_and!; try done. split; [by intros [? ?] | by intros [_ [? ?]]].
Qed.

(** ** The registry *)

Lemma textContent_not_unknown text :
  textContent text ≠ map_any {[ "error" := string_ "Unknown tool" ]}.
Proof.
  unfold textContent. intros H.
  apply (f_equal (λ v, match v with map_any m => m !! "error" | _ => None end))
    in H.
  by rewrite lookup_singleton_ne, lookup_singleton_eq in H.
Qed.

(** X2: the registry [main] sets up and the executor agree: a name is
    registered exactly when calling it does not give the unknown-tool
    answer. *)
Theorem registered_iff_executable rt s name args :
  is_Some (tools server !! name)
  ↔ executeTool rt s name args
    ≠ map_any {[ "error" := string_ "Unknown tool" ]}.
Proof.
  unfold server, setupTools, NewMCPServer, executeTool. cbn [tools].
  destruct (String.eqb_spec name "system_info") as [->|Hi].
  { split; [intros _; apply textContent_not_unknown | by eexists]. }
  destruct (String.eqb_spec name "echo") as [->|He].
  { split; [intros _; apply textContent_not_unknown | by eexists]. }
  rewrite !lookup_insert_ne, lookup_empty by done.
  split; [by intros [? ?] | done].
Qed.

Lemma setupTools_lookup s name :
  tools (setupTools s) !! name
  = if String.eqb name "echo" then Some echo_tool
    else if String.eqb name "system_info" then Some system_info_tool
    else tools s !! name.
Proof.
  unfold setupTools. cbn [tools].
  destruct (String.eqb_spec name "echo") as [->|He].
  { by rewrite lookup_insert_eq. }
  rewrite lookup_insert_ne by done.
  destruct (String.eqb_spec name "system_info") as [->|Hi].
  { by rewrite lookup_insert_eq. }
  by rewrite lookup_insert_ne.
Qed.

(** X3: [setupTools] on any registry: the two tools are registered,
    replacing entries of the same names; every other entry is kept;
    running it again changes nothing. *)
Theorem setupTools_registers s :
  tools (setupTools s) !! "echo" = Some echo_tool
  ∧ tools (setupTools s) !! "system_info" = Some system_info_tool
  ∧ (∀ name, name ≠ "echo" → name ≠ "system_info" →
       tools (setupTools s) !! name = tools s !! name)
  ∧ setupTools (setupTools s) = setupTools s.
Proof.
  split; [by rewrite setupTools_lookup|].
  split; [by rewrite setupTools_lookup|].
  split.
  - intros name He Hi. rewrite setupTools_lookup.
    apply String.eqb_neq in He, Hi. by rewrite He, Hi.
  - assert (Heq : tools (setupTools (setupTools s)) = tools (setupTools s)).
    { apply map_eq. intros name. rewrite !setupTools_lookup.
      destruct (String.eqb name "echo"); [done|].
      by destruct (String.eqb name "system_info"). }
    destruct (setupTools (setupTools s)), (setupTools s). cbn in Heq.
    by rewrite Heq.
Qed.

(** X4: [setupTools] keeps the registry keyed by tool name: when every
    entry is stored under the name of its descriptor, this is still so
    after the registration. *)
Theorem setupTools_keyed_by_name s :
  (∀ name t, tools s !! name = Some t → Name t = name) →
  ∀ name t, tools (setupTools s) !! name = Some t → Name t = name.
Proof.
  intros Hs name t. rewrite setupTools_lookup.
  destruct (String.eqb_spec name "echo") as [->|He]; [by intros [= <-]|].
  destruct (String.eqb_spec name "system_info") as [->|Hi];
    [by intros [= <-]|].
  apply Hs.
Qed.

Lemma setupTools_keyed_by_name_witness : Name echo_tool = "echo".
Proof.
  apply (setupTools_keyed_by_name NewMCPServer).
  - intros name t. cbn. by rewrite lookup_empty.
  - vm_compute. reflexivity.
Defined.

(** X5: [tools/list] on any registry, for any order of visit, returns
    exactly the registered descriptors, one for each key; with an empty
    registry the sequence is empty. *)
Theorem tools_list_any_registry rt s visit body req :
  wellFormed body req →
  JSONRPCRequest.Method req = "tools/list" →
  rangeOrder (tools s) visit →
  ∃ ts,
    Out (handleMCP rt s visit (post body))
    = EncodeResponse
        {| JSONRPCResponse.JSONRPC := "2.0";
           JSONRPCResponse.ID := JSONRPCRequest.ID req;
           JSONRPCResponse.Result := map_any {[ "tools" := slice_Tool ts ]};
           JSONRPCResponse.Error := None |}
    ∧ length ts = size (tools s)
    ∧ (∀ t, t ∈ ts ↔ ∃ name, tools s !! name = Some t)
    ∧ (tools s = ∅ → ts = []).
Proof.
  intros Hwf Hm Hvisit. exists (visit.*2).
  rewrite (handleMCP_wellFormed _ _ _ _ _ Hwf), dispatch_tools_list by done.
  unfold rangeOrder in Hvisit. split_and!.
  - reflexivity.
  - by rewrite length_fmap, Hvisit, length_map_to_list.
  - intros t. rewrite list_elem_of_fmap. split.
    + intros ([name t'] & -> & Hin). exists name.
      apply elem_of_map_to_list. by rewrite <- Hvisit.
    + intros (name & Hl). exists (name, t). split; [done|].
      rewrite Hvisit. by apply elem_of_map_to_list.
  - intros Hempty. rewrite Hempty, map_to_list_empty in Hvisit.
    apply Permutation_nil_r in Hvisit. by rewrite Hvisit.
Qed.

Lemma tools_list_any_registry_witness :
  ∃ ts,
    Out (handleMCP exampleHost NewMCPServer []
           (post (js "{'jsonrpc':'2.0','id':'q','method':'tools/list'}")))
    = EncodeResponse
        (resultResponse (string_ "q") (map_any {[ "tools" := slice_Tool ts ]}))
    ∧ length ts = size (tools NewMCPServer)
    ∧ (∀ t, t ∈ ts ↔ ∃ name, tools NewMCPServer !! name = Some t)
    ∧ (tools NewMCPServer = ∅ → ts = []).
Proof.
  apply (tools_list_any_registry exampleHost NewMCPServer []
           (js "{'jsonrpc':'2.0','id':'q','method':'tools/list'}")
           (JSONRPCRequest.mk "2.0" (string_ "q") "tools/list" ""));
    [vm_compute; reflexivity ..|].
  unfold rangeOrder, NewMCPServer. cbn [tools].
  by rewrite map_to_list_empty.
Defined.

Lemma dispatch_registry_unread rt s s' visit visit' req :
  JSONRPCRequest.Method req ≠ "tools/list" →
  dispatch rt s visit req = dispatch rt s' visit' req.
Proof.
  unfold dispatch. intros Hm. apply String.eqb_neq in Hm. cbv zeta.
  destruct (String.eqb _ "initialize"); [reflexivity|].
  destruct (String.eqb _ "tools/list"); [discriminate|].
  destruct (String.eqb _ "tools/call"); [|reflexivity].
  unfold executeTool. reflexivity.
Qed.

(** X6: only [tools/list] reads the registry. A request that is not a
    well-formed [tools/list] call gets the same reply from any two
    servers: what [tools/call] can run does not depend on what is
    registered. *)
Theorem only_tools_list_reads_registry rt s s' visit visit' r :
  (∀ body req, http.Body r = Some body → wellFormed body req →
     JSONRPCRequest.Method req ≠ "tools/list") →
  handleMCP rt s visit r = handleMCP rt s' visit' r.
Proof.
  intros Hnot. unfold handleMCP. apply f_equal.
  destruct (String.eqb _ "OPTIONS"); [reflexivity|].
  destruct (String.eqb _ "GET"); [reflexivity|].
  destruct (negb _); [reflexivity|].
  destruct (http.Body r) as [body|]; [|reflexivity].
  destruct (json.Unmarshal _ _ _) as [req [e|]] eqn:Hd; [reflexivity|].
  apply f_equal, dispatch_registry_unread. by eapply Hnot.
Qed.

Lemma only_tools_list_reads_registry_witness :
  handleMCP exampleHost server exampleVisit
    (post (js "{'id':1,'method':'tools/call','params':{'name':'echo'}}"))
  = handleMCP exampleHost NewMCPServer []
      (post (js "{'id':1,'method':'tools/call','params':{'name':'echo'}}")).
Proof.
  apply (only_tools_list_reads_registry exampleHost server NewMCPServer
           exampleVisit []).
  intros body req [= <-] Hwf. unfold wellFormed in Hwf.
  vm_compute in Hwf. injection Hwf as <-. discriminate.
Defined.

(** ** [main] *)

(** X7: the server listens on the port named by PORT; when PORT is not
    set, or is set to the empty string, it listens on 8080. The port is
    never empty. *)
Theorem mainAddr_port env :
  mainAddr env = ":" +:+ mainPort env
  ∧ mainPort env ≠ ""
  ∧ (∀ port, env !! "PORT" = Some port → port ≠ "" → mainPort env = port)
  ∧ (env !! "PORT" = None ∨ env !! "PORT" = Some "" → mainPort env = "8080").
Proof.
  unfold mainAddr, mainPort, os.Getenv. split_and!.
  - reflexivity.
  - destruct (env !! "PORT") as [port|]; cbn; [|done].
    by destruct (String.eqb_spec port "").
  - intros port -> Hne. cbn. apply String.eqb_neq in Hne. by rewrite Hne.
  - by intros [-> | ->].
Qed.

(** ** What decoding keeps of an object *)

Lemma fieldIs_foldName name key :
  json.fieldIs name key = true → json.foldName key = json.foldName name.
Proof.
  unfold json.fieldIs. intros [H|H]%orb_true_iff.
  - apply String.eqb_eq in H. by rewrite H.
  - by apply String.eqb_eq in H.
Qed.

(** A key selects at most one of two names that fold differently. *)
Lemma fieldIs_exclusive name name' key :
  json.foldName name ≠ json.foldName name' →
  json.fieldIs name key = true → json.fieldIs name' key = false.
Proof.
  intros Hne H. destruct (json.fieldIs name' key) eqn:H'; [|done].
  apply fieldIs_foldName in H, H'. congruence.
Qed.

Section fields.

Context {T : Type}.
Variable field :
  string → json.RawMessage → json.value → T → T * option json.error.

(** A field of type string, filled from the members named [name]. *)
Lemma storeMembers_string (proj : T → string) name :
  (∀ key raw v t,
     proj (field key raw v t).1
     = if json.fieldIs name key
       then match v with json.Str x => x | _ => proj t end
       else proj t) →
  ∀ members acc,
    proj (fold_left (json.storeMember field) members acc).1
    = default (proj acc.1) (lastString name members).
Proof.
  intros Hfield members.
  induction members as [|[[key raw] v] members IH]; intros acc; [done|].
  cbn [fold_left lastString]. rewrite IH.
  destruct (lastString name members) as [x|]; [done|]. cbn [default].
  destruct acc as [t e]. unfold json.storeMember.
  specialize (Hfield key raw v t).
  destruct (field key raw v t) as [t' e']. cbn [fst] in *. rewrite Hfield.
  destruct (json.fieldIs name key); [|done]. by destruct v.
Qed.

(** A field of type [json.RawMessage], filled from the members named
    [name]. *)
Lemma storeMembers_raw (proj : T → json.RawMessage) name :
  (∀ key raw v t,
     proj (field key raw v t).1
     = if json.fieldIs name key then raw else proj t) →
  ∀ members acc,
    proj (fold_left (json.storeMember field) members acc).1
    = default (proj acc.1) (fst <$> lastMember name members).
Proof.
  intros Hfield members.
  induction members as [|[[key raw] v] members IH]; intros acc; [done|].
  cbn [fold_left lastMember]. rewrite IH.
  destruct (lastMember name members) as [x|]; [done|]. cbn [default fmap].
  destruct acc as [t e]. unfold json.storeMember.
  specialize (Hfield key raw v t).
  destruct (field key raw v t) as [t' e']. cbn [fst] in *. rewrite Hfield.
  by destruct (json.fieldIs name key).
Qed.

End fields.

Lemma echoParams_Message_last members :
  echoParams.Message
    (json.storeStruct echoParams.field (json.Object members) echoParams.zero).1
  = default "" (lastString "message" members).
Proof.
  unfold json.storeStruct.
  rewrite (storeMembers_string _ echoParams.Message "message"); [done|].
  intros key raw v t. unfold echoParams.field.
  destruct (json.fieldIs "message" key); [|done]. by destruct v.
Qed.

Lemma callParams_Name_last members :
  callParams.Name
    (json.storeStruct callParams.field (json.Object members) callParams.zero).1
  = default "" (lastString "name" members).
Proof.
  unfold json.storeStruct.
  rewrite (storeMembers_string _ callParams.Name "name"); [done|].
  intros key raw v t. unfold callParams.field.
  destruct (json.fieldIs "name" key); [by destruct v|].
  by destruct (json.fieldIs "arguments" key).
Qed.

Lemma callParams_Arguments_last members :
  callParams.Arguments
    (json.storeStruct callParams.field (json.Object members) callParams.zero).1
  = default "" (fst <$> lastMember "arguments" members).
Proof.
  unfold json.storeStruct.
  rewrite (storeMembers_raw _ callParams.Arguments "arguments"); [done|].
  intros key raw v t. unfold callParams.field.
  destruct (json.fieldIs "name" key) eqn:Hn.
  - rewrite (fieldIs_exclusive "name" "arguments") by done. by destruct v.
  - by destruct (json.fieldIs "arguments" key).
Qed.

Lemma JSONRPCRequest_Method_last members :
  JSONRPCRequest.Method
    (json.storeStruct JSONRPCRequest.field (json.Object members)
       JSONRPCRequest.zero).1
  = default "" (lastString "method" members).
Proof.
  unfold json.storeStruct.
  rewrite (storeMembers_string _ JSONRPCRequest.Method "method"); [done|].
  intros key raw v t. unfold JSONRPCRequest.field.
  destruct (json.fieldIs "jsonrpc" key) eqn:Hj.
  { rewrite (fieldIs_exclusive "jsonrpc" "method") by done.
    by destruct (json.storeString v (JSONRPCRequest.JSONRPC t)). }
  destruct (json.fieldIs "id" key) eqn:Hi.
  { rewrite (fieldIs_exclusive "id" "method") by done.
    by destruct (json.storeInterface v (JSONRPCRequest.ID t)). }
  destruct (json.fieldIs "method" key); [by destruct v|].
  by destruct (json.fieldIs "params" key).
Qed.

Lemma JSONRPCRequest_Params_last members :
  JSONRPCRequest.Params
    (json.storeStruct JSONRPCRequest.field (json.Object members)
       JSONRPCRequest.zero).1
  = default "" (fst <$> lastMember "params" members).
Proof.
  unfold json.storeStruct.
  rewrite (storeMembers_raw _ JSONRPCRequest.Params "params"); [done|].
  intros key raw v t. unfold JSONRPCRequest.field.
  destruct (json.fieldIs "jsonrpc" key) eqn:Hj.
  { rewrite (fieldIs_exclusive "jsonrpc" "params") by done.
    by destruct (json.storeString v (JSONRPCRequest.JSONRPC t)). }
  destruct (json.fieldIs "id" key) eqn:Hi.
  { rewrite (fieldIs_exclusive "id" "params") by done.
    by destruct (json.storeInterface v (JSONRPCRequest.ID t)). }
  destruct (json.fieldIs "method" key) eqn:Hm.
  { rewrite (fieldIs_exclusive "method" "params") by done.
    by destruct (json.storeString v (JSONRPCRequest.Method t)). }
  by destruct (json.fieldIs "params" key).
Qed.

Lemma Unmarshal_parsed {T} (store : json.value → T → T * option json.error)
    data (t : T) v :
  json.parse data = Some v → json.Unmarshal store data t = store v t.
Proof. unfold json.Unmarshal. by intros ->. Qed.

(** X8: the echo tool returns the last member of its arguments that is
    named message and holds a string, whatever else the arguments
    hold (members of other names, or message members of other types
    that make decoding fail); with no such member it returns the empty
    message. *)
Theorem echo_returns_last_message rt s args members :
  json.parse args = Some (json.Object members) →
  executeTool rt s "echo" args
  = textContent ("Echo: " +:+ default "" (lastString "message" members)).
Proof.
  intros Hparse. rewrite executeTool_echo by done.
  rewrite (Unmarshal_parsed _ _ _ _ Hparse). unfold echoParams.store.
  by rewrite echoParams_Message_last.
Qed.

Lemma echo_returns_last_message_witness :
  executeTool exampleHost server "echo"
    (js "{'message':'a','MESSAGE':7,'Message':'b','text':'c'}")
  = textContent
      ("Echo: "
       +:+ default ""
             (lastString "message"
                [("message", js "'a'", json.Str "a");
                 ("MESSAGE", "7", json.Number "7");
                 ("Message", js "'b'", json.Str "b");
                 ("text", js "'c'", json.Str "c")])).
Proof.
  apply (echo_returns_last_message exampleHost server
           (js "{'message':'a','MESSAGE':7,'Message':'b','text':'c'}")).
  vm_compute. reflexivity.
Defined.

(** X9: in a request object the method is the last member named method
    that holds a string; members of other names, and method members
    holding null, are ignored. A well-formed request with no such
    member has the empty method and is answered with -32601 and its
    identifier. *)
Theorem request_method_is_last_member rt s visit body members req :
  json.parse body = Some (json.Object members) →
  wellFormed body req →
  JSONRPCRequest.Method req = default "" (lastString "method" members)
  ∧ (lastString "method" members = None →
     Out (handleMCP rt s visit (post body))
     = EncodeResponse (methodNotFoundResponse (JSONRPCRequest.ID req))).
Proof.
  intros Hparse Hwf.
  assert (Hreq : req = (JSONRPCRequest.store (json.Object members)
                          JSONRPCRequest.zero).1).
  { pose proof (Unmarshal_parsed JSONRPCRequest.store body
                  JSONRPCRequest.zero _ Hparse) as Hd.
    unfold wellFormed in Hwf. rewrite Hd in Hwf. by rewrite Hwf. }
  assert (Hm : JSONRPCRequest.Method req
               = default "" (lastString "method" members)).
  { rewrite Hreq. apply JSONRPCRequest_Method_last. }
  split_and!.
  - exact Hm.
  - intros Hnone. rewrite Hnone in Hm. cbn in Hm.
    rewrite (handleMCP_wellFormed _ _ _ _ _ Hwf).
    rewrite dispatch_default.
    + reflexivity.
    + rewrite Hm. discriminate.
    + rewrite Hm. discriminate.
    + rewrite Hm. discriminate.
Qed.

Lemma request_method_is_last_member_witness :
  let members :=
    [("id", "4", json.Number "4"); ("method", "null", json.Null);
     ("Params", "[]", json.Array [])] in
  let req :=
    JSONRPCRequest.mk "" (float64_ (S754_finite false 4503599627370496 (-50)))
      "" "[]" in
  JSONRPCRequest.Method req = default "" (lastString "method" members)
  ∧ (lastString "method" members = None →
     Out (handleMCP exampleHost server exampleVisit
            (post (js "{'id':4,'method':null,'Params':[]}")))
     = EncodeResponse (methodNotFoundResponse (JSONRPCRequest.ID req))).
Proof.
  apply (request_method_is_last_member exampleHost server exampleVisit
           (js "{'id':4,'method':null,'Params':[]}"));
    vm_compute; reflexivity.
Defined.

(** X10: a body that is valid JSON but not an object: [null] decodes to
    the empty request and is answered with -32601 and a nil identifier;
    an array, a string, a number or a boolean is a decoding error,
    answered with -32700 like a body that is not JSON. *)
Theorem non_object_body rt s visit body v :
  json.parse body = Some v →
  let out := Out (handleMCP rt s visit (post body)) in
  match v with
  | json.Object _ => True
  | json.Null => out = EncodeResponse (methodNotFoundResponse nil_)
  | _ => out = EncodeResponse parseErrorResponse
  end.
Proof.
  intros Hparse out. subst out.
  assert (Hd : json.Unmarshal JSONRPCRequest.store body JSONRPCRequest.zero
               = JSONRPCRequest.store v JSONRPCRequest.zero).
  { by apply Unmarshal_parsed. }
  destruct v; try done.
  - by rewrite (handleMCP_wellFormed _ _ _ _ JSONRPCRequest.zero Hd).
  - by rewrite (handleMCP_decode_error _ _ _ _ _ _ Hd).
  - by rewrite (handleMCP_decode_error _ _ _ _ _ _ Hd).
  - by rewrite (handleMCP_decode_error _ _ _ _ _ _ Hd).
  - by rewrite (handleMCP_decode_error _ _ _ _ _ _ Hd).
Qed.

Lemma non_object_body_witness :
  Out (handleMCP exampleHost server exampleVisit (post " null "))
  = EncodeResponse (methodNotFoundResponse nil_).
Proof.
  apply (non_object_body exampleHost server exampleVisit " null " json.Null).
  vm_compute. reflexivity.
Defined.

(** ** Reading a value again from its own bytes *)

Lemma bytes_app_cons c a b : String c a +:+ b = String c (a +:+ b).
Proof. reflexivity. Qed.

Lemma bytes_app_nil_l s : "" +:+ s = s.
Proof. reflexivity. Qed.

Ltac bytes_norm := rewrite ?bytes_app_cons, ?bytes_app_nil_l.

Lemma bytes_app_nil_r s : s +:+ "" = s.
Proof.
  induction s as [|c s IH]; [done|]. by rewrite bytes_app_cons, IH.
Qed.

Lemma bytes_app_assoc a b c : (a +:+ b) +:+ c = a +:+ (b +:+ c).
Proof.
  induction a as [|x a IH]; [done|]. by rewrite !bytes_app_cons, IH.
Qed.

(** Appends are nested to the right. *)
Ltac bytes_assoc :=
  repeat first [ rewrite bytes_app_cons | rewrite bytes_app_assoc
               | rewrite bytes_app_nil_l ].

Lemma bytes_app_length a b : len (a +:+ b) = (len a + len b)%nat.
Proof.
  induction a as [|x a IH]; [done|]. rewrite bytes_app_cons. cbn.
  by rewrite IH.
Qed.

Lemma take_bytes_app p r : take_bytes (len (p +:+ r) - len r) (p +:+ r) = p.
Proof.
  rewrite bytes_app_length. replace (len p + len r - len r)%nat with (len p) by lia.
  induction p as [|c p IH]; [by destruct r|].
  rewrite bytes_app_cons. cbn. by rewrite IH.
Qed.

Lemma bytes_app_inv_tail a b r : a +:+ r = b +:+ r → a = b.
Proof.
  revert b. induction a as [|x a IH]; intros [|y b] H;
    rewrite ?bytes_app_cons, ?bytes_app_nil_l in H.
  - done.
  - apply (f_equal len) in H. cbn in H. rewrite bytes_app_length in H. lia.
  - apply (f_equal len) in H. cbn in H. rewrite bytes_app_length in H. lia.
  - injection H as -> H. by rewrite (IH _ H).
Qed.

Lemma prefixOf_nil r : prefixOf "" r.
Proof. by exists r. Qed.

Lemma prefixOf_refl r : prefixOf r r.
Proof. exists "". symmetry. apply bytes_app_nil_r. Qed.

Lemma prefixOf_app p q r : prefixOf q r → prefixOf (p +:+ q) (p +:+ r).
Proof. intros [q' ->]. exists q'. by rewrite bytes_app_assoc. Qed.

Lemma prefixOf_cons c q r : prefixOf q r → prefixOf (String c q) (String c r).
Proof. apply (prefixOf_app (String c "")). Qed.

Lemma prefixOf_length q r : prefixOf q r → (len q ≤ len r)%nat.
Proof. intros [q' ->]. rewrite bytes_app_length. lia. Qed.

Lemma prefixOf_inv q c r :
  prefixOf q (String c r) → q = "" ∨ ∃ q', q = String c q' ∧ prefixOf q' r.
Proof.
  intros [q' H]. destruct q as [|c' q]; [by left|]. right.
  rewrite bytes_app_cons in H. injection H as -> ->.
  exists q. split; [done | by exists q'].
Qed.

Lemma prefixOf_empty q : prefixOf q "" → q = "".
Proof. intros [q' H]. by destruct q. Qed.

Lemma skipSpace_head s c t : json.skipSpace s = String c t → json.isSpace c = false.
Proof.
  induction s as [|c' s IH]; cbn; [done|].
  destruct (json.isSpace c') eqn:Hc; [done|]. by intros [= <- <-].
Qed.

Lemma skipSpace_nonspace c t :
  json.isSpace c = false → json.skipSpace (String c t) = String c t.
Proof. cbn. by intros ->. Qed.

Lemma skipSpace_truncates s :
  ∃ p, s = p +:+ json.skipSpace s
       ∧ ∀ q, prefixOf q (json.skipSpace s) → json.skipSpace (p +:+ q) = q.
Proof.
  induction s as [|c s (p & Hs & Hq)].
  - exists "". split; [done|]. intros q Hp. by rewrite (prefixOf_empty _ Hp).
  - cbn [json.skipSpace]. destruct (json.isSpace c) eqn:Hc.
    + exists (String c p). split; [by rewrite bytes_app_cons, <- Hs|].
      intros q Hp. rewrite bytes_app_cons. cbn. rewrite Hc. by apply Hq.
    + exists "". split; [done|]. intros q Hp. rewrite bytes_app_nil_l.
      apply prefixOf_inv in Hp as [-> | (q' & -> & _)]; [done|].
      by apply skipSpace_nonspace.
Qed.

Lemma scanString_truncates n :
  ∀ s body r, (len s ≤ n)%nat → json.scanString s = Some (body, r) →
    ∃ p, s = p +:+ r ∧ ∀ q, json.scanString (p +:+ q) = Some (body, q).
Proof.
  induction n as [|n IH]; intros s body r Hn.
  - destruct s; [discriminate | cbn in Hn; lia].
  - destruct s as [|c t]; [discriminate|]. cbn [json.scanString]. cbn in Hn.
    destruct (Ascii.eqb c dquote) eqn:Hq.
    { intros [= <- <-]. exists (String c ""). split; [done|].
      intros q. bytes_norm. cbn. by rewrite Hq. }
    destruct (Ascii.eqb c "\") eqn:Hb.
    + destruct t as [|e t']; [discriminate|].
      destruct (json.isEscape e) eqn:He.
      * destruct (json.scanString t') as [[b' r']|] eqn:Hs; [|discriminate].
        intros [= <- <-].
        apply IH in Hs as (p & -> & Hp); [|cbn in *; lia].
        exists (String c (String e p)). split; [done|].
        intros q. bytes_norm. cbn. by rewrite Hq, Hb, He, Hp.
      * destruct (Ascii.eqb e "u") eqn:Hu; [|discriminate].
        destruct t' as [|h1 [|h2 [|h3 [|h4 t'']]]]; try discriminate.
        destruct (_ && _) eqn:Hh; [|discriminate].
        destruct (json.scanString t'') as [[b' r']|] eqn:Hs; [|discriminate].
        intros [= <- <-].
        apply IH in Hs as (p & -> & Hp); [|cbn in *; lia].
        exists (String c (String e (String h1 (String h2 (String h3
                  (String h4 p)))))).
        split; [done|]. intros q. bytes_norm. cbn.
        by rewrite Hq, Hb, He, Hu, Hh, Hp.
    + destruct (_ <? _)%N eqn:Hlt; [discriminate|].
      destruct (json.scanString t) as [[b' r']|] eqn:Hs; [|discriminate].
      intros [= <- <-].
      apply IH in Hs as (p & -> & Hp); [|cbn in *; lia].
      exists (String c p). split; [done|].
      intros q. bytes_norm. cbn. by rewrite Hq, Hb, Hlt, Hp.
Qed.

Lemma spanDigits_truncates s d r :
  json.spanDigits s = (d, r) →
  s = d +:+ r ∧ ∀ q, prefixOf q r → json.spanDigits (d +:+ q) = (d, q).
Proof.
  revert d r. induction s as [|c t IH]; intros d r; cbn.
  - intros [= <- <-]. split; [done|]. intros q Hq.
    by rewrite (prefixOf_empty _ Hq).
  - destruct (strconv.isDigit c) eqn:Hc.
    + destruct (json.spanDigits t) as [d' r'] eqn:Hs. intros [= <- <-].
      destruct (IH _ _ eq_refl) as [-> Hq]. split; [done|].
      intros q Hp. bytes_norm. cbn. by rewrite Hc, (Hq _ Hp).
    + intros [= <- <-]. split; [done|]. intros q Hp. bytes_norm.
      apply prefixOf_inv in Hp as [-> | (q' & -> & _)]; [done|].
      cbn. by rewrite Hc.
Qed.

Lemma optByte_truncates f s x r :
  json.optByte f s = (x, r) →
  s = x +:+ r ∧ ∀ q, prefixOf q r → json.optByte f (x +:+ q) = (x, q).
Proof.
  destruct s as [|c t]; cbn.
  - intros [= <- <-]. split; [done|]. intros q Hq.
    by rewrite (prefixOf_empty _ Hq).
  - destruct (f c) eqn:Hc; intros [= <- <-].
    + split; [done|]. intros q _. bytes_norm. cbn. by rewrite Hc.
    + split; [done|]. intros q Hp. bytes_norm.
      apply prefixOf_inv in Hp as [-> | (q' & -> & _)]; [done|].
      cbn. by rewrite Hc.
Qed.

Lemma scanInt_truncates s x r :
  json.scanInt s = Some (x, r) →
  s = x +:+ r ∧ ∀ q, prefixOf q r → json.scanInt (x +:+ q) = Some (x, q).
Proof.
  destruct s as [|c t]; cbn; [discriminate|].
  destruct (Ascii.eqb c "0") eqn:H0.
  { intros [= <- <-]. split; [done|]. intros q _. bytes_norm. cbn.
    by rewrite H0. }
  destruct (between 49 57 c) eqn:Hc; [|discriminate].
  destruct (json.spanDigits t) as [d r'] eqn:Hs. intros [= <- <-].
  apply spanDigits_truncates in Hs as [-> Hq]. split; [done|].
  intros q Hp. bytes_norm. cbn. by rewrite H0, Hc, (Hq _ Hp).
Qed.

Lemma scanFrac_truncates s x r :
  json.scanFrac s = Some (x, r) →
  s = x +:+ r ∧ ∀ q, prefixOf q r → json.scanFrac (x +:+ q) = Some (x, q).
Proof.
  destruct s as [|c t]; cbn.
  { intros [= <- <-]. split; [done|]. intros q Hq.
    by rewrite (prefixOf_empty _ Hq). }
  destruct (Ascii.eqb c ".") eqn:Hc.
  - destruct (json.spanDigits t) as [d r'] eqn:Hs.
    destruct d as [|d0 d]; [discriminate|]. intros [= <- <-].
    apply spanDigits_truncates in Hs as [-> Hq]. split; [done|].
    intros q Hp.
    change (String c (String d0 d) +:+ q) with (String c (String d0 d +:+ q)).
    unfold json.scanFrac. by rewrite Hc, (Hq _ Hp).
  - intros [= <- <-]. split; [done|]. intros q Hp. bytes_norm.
    apply prefixOf_inv in Hp as [-> | (q' & -> & _)]; [done|].
    cbn. by rewrite Hc.
Qed.

Lemma scanExp_truncates s x r :
  json.scanExp s = Some (x, r) →
  s = x +:+ r ∧ ∀ q, prefixOf q r → json.scanExp (x +:+ q) = Some (x, q).
Proof.
  destruct s as [|c t]; cbn.
  { intros [= <- <-]. split; [done|]. intros q Hq.
    by rewrite (prefixOf_empty _ Hq). }
  destruct (_ || _) eqn:Hc.
  - destruct (json.optByte _ t) as [sg t'] eqn:Ho.
    destruct (json.spanDigits t') as [d r'] eqn:Hs.
    destruct d as [|d0 d]; [discriminate|]. intros [= <- <-].
    apply optByte_truncates in Ho as [-> Ho].
    apply spanDigits_truncates in Hs as [-> Hq].
    split; [by bytes_assoc|].
    intros q Hp.
    change (String c (sg +:+ String d0 d) +:+ q)
      with (String c ((sg +:+ String d0 d) +:+ q)).
    rewrite bytes_app_assoc. unfold json.scanExp. rewrite Hc.
    rewrite Ho by (by apply prefixOf_app).
    by rewrite (Hq _ Hp).
  - intros [= <- <-]. split; [done|]. intros q Hp. bytes_norm.
    apply prefixOf_inv in Hp as [-> | (q' & -> & _)]; [done|].
    cbn. by rewrite Hc.
Qed.

Lemma scanNumber_truncates s x r :
  json.scanNumber s = Some (x, r) →
  s = x +:+ r ∧ ∀ q, prefixOf q r → json.scanNumber (x +:+ q) = Some (x, q).
Proof.
  unfold json.scanNumber.
  destruct (json.optByte _ s) as [sign s1] eqn:Ho.
  destruct (json.scanInt s1) as [[int s2]|] eqn:Hi; [|discriminate].
  destruct (json.scanFrac s2) as [[frac s3]|] eqn:Hf; [|discriminate].
  destruct (json.scanExp s3) as [[exp s4]|] eqn:He; [|discriminate].
  intros [= <- <-].
  apply optByte_truncates in Ho as [-> Ho].
  apply scanInt_truncates in Hi as [-> Hi].
  apply scanFrac_truncates in Hf as [-> Hf].
  apply scanExp_truncates in He as [-> He].
  split; [by rewrite !bytes_app_assoc|].
  intros q Hp. rewrite !bytes_app_assoc.
  rewrite Ho by (by do 3 apply prefixOf_app).
  rewrite Hi by (by do 2 apply prefixOf_app).
  rewrite Hf by (by apply prefixOf_app).
  by rewrite (He _ Hp).
Qed.

Lemma hasPrefix_app lit q : json.hasPrefix lit (lit +:+ q) = true.
Proof.
  induction lit as [|c lit IH]; [done|]. rewrite bytes_app_cons. cbn.
  by rewrite Ascii.eqb_refl, IH.
Qed.

Lemma drop_bytes_app lit q : drop_bytes (len lit) (lit +:+ q) = q.
Proof.
  induction lit as [|c lit IH]; [by destruct q|].
  rewrite bytes_app_cons. cbn. apply IH.
Qed.

Lemma hasPrefix_split lit s :
  json.hasPrefix lit s = true → s = lit +:+ drop_bytes (len lit) s.
Proof.
  revert s. induction lit as [|c lit IH]; intros s; cbn.
  - by destruct s.
  - destruct s as [|c' s]; [discriminate|].
    destruct (Ascii.eqb_spec c c') as [->|]; [|discriminate].
    intros H. rewrite bytes_app_cons. by rewrite <- (IH _ H).
Qed.

Lemma literal_truncates lit v : truncates (json.literal lit v).
Proof.
  intros s x r. unfold json.literal.
  destruct (json.hasPrefix lit s) eqn:Hp; [|discriminate].
  intros [= <- <-]. exists lit. split; [by apply hasPrefix_split|].
  intros q _. by rewrite hasPrefix_app, drop_bytes_app.
Qed.

Lemma skipSpace_cut s t :
  json.skipSpace s = t →
  ∃ p, s = p +:+ t ∧ ∀ q, prefixOf q t → json.skipSpace (p +:+ q) = q.
Proof. intros <-. apply skipSpace_truncates. Qed.

Section nested_truncates.

Variable parseNested : string → option (json.value * string).
Hypothesis parseNested_shrinks :
  ∀ s v r, parseNested s = Some (v, r) → (len r < len s)%nat.
Hypothesis parseNested_truncates : truncates parseNested.

Lemma parseElems_truncates n : truncates (json.parseElems parseNested n).
Proof.
  induction n as [|n IH]; intros s x r; cbn [json.parseElems];
    [discriminate|].
  destruct (parseNested s) as [[v r1]|] eqn:Hv; [|discriminate].
  apply parseNested_truncates in Hv as (p1 & -> & Hp1).
  destruct (json.skipSpace r1) as [|c r2] eqn:Hsk1; [discriminate|].
  apply skipSpace_cut in Hsk1 as (w1 & -> & Hw1).
  destruct (Ascii.eqb c ","%char) eqn:Hc.
  - remember (json.skipSpace r2) as t2 eqn:Hsk2. symmetry in Hsk2.
    apply skipSpace_cut in Hsk2 as (w2 & -> & Hw2).
    destruct (json.parseElems _ n _) as [[vs r3]|] eqn:He; [|discriminate].
    intros [= <- <-]. apply IH in He as (p' & -> & Hp').
    exists (p1 +:+ w1 +:+ String c (w2 +:+ p')). split; [by bytes_assoc|].
    intros q Hq. bytes_assoc. cbn [json.parseElems].
    rewrite Hp1
      by (by apply prefixOf_app, prefixOf_cons, prefixOf_app, prefixOf_app).
    rewrite Hw1 by (by apply prefixOf_cons, prefixOf_app, prefixOf_app).
    rewrite Hc, Hw2 by (by apply prefixOf_app).
    by rewrite Hp'.
  - destruct (Ascii.eqb c "]"%char) eqn:Hc'; [|discriminate].
    intros [= <- <-].
    exists (p1 +:+ w1 +:+ String c ""). split; [by bytes_assoc|].
    intros q Hq. bytes_assoc. cbn [json.parseElems].
    rewrite Hp1 by (by apply prefixOf_app, prefixOf_cons).
    rewrite Hw1 by (by apply prefixOf_cons).
    by rewrite Hc, Hc'.
Qed.

Lemma parseMembers_truncates n : truncates (json.parseMembers parseNested n).
Proof.
  induction n as [|n IH]; intros s x r; cbn [json.parseMembers];
    [discriminate|].
  destruct s as [|k t]; [discriminate|].
  destruct (Ascii.eqb k dquote) eqn:Hk; [|discriminate].
  destruct (json.scanString t) as [[key r0]|] eqn:Hkey; [|discriminate].
  apply (scanString_truncates _ _ _ _ (le_n _)) in Hkey as (p0 & -> & Hp0).
  destruct (json.skipSpace r0) as [|c r1] eqn:Hsk0; [discriminate|].
  apply skipSpace_cut in Hsk0 as (w0 & -> & Hw0).
  destruct (Ascii.eqb c ":"%char) eqn:Hc; [|discriminate].
  remember (json.skipSpace r1) as sv eqn:Hsk1. symmetry in Hsk1.
  apply skipSpace_cut in Hsk1 as (w1 & -> & Hw1).
  destruct (parseNested sv) as [[v r2]|] eqn:Hv; [|discriminate].
  apply parseNested_truncates in Hv as (pv & -> & Hpv).
  destruct (json.skipSpace r2) as [|c' r3] eqn:Hsk2; [discriminate|].
  apply skipSpace_cut in Hsk2 as (w2 & -> & Hw2).
  rewrite take_bytes_app.
  destruct (Ascii.eqb c' ","%char) eqn:Hc'.
  - remember (json.skipSpace r3) as t3 eqn:Hsk3. symmetry in Hsk3.
    apply skipSpace_cut in Hsk3 as (w3 & -> & Hw3).
    destruct (json.parseMembers _ n _) as [[ms r4]|] eqn:He; [|discriminate].
    intros [= <- <-]. apply IH in He as (p' & -> & Hp').
    exists (String k p0 +:+ w0 +:+ String c (w1 +:+ pv +:+ w2
              +:+ String c' (w3 +:+ p'))).
    split; [by bytes_assoc|].
    intros q Hq. bytes_assoc. cbn [json.parseMembers].
    rewrite Hk, Hp0, Hw0
      by (by apply prefixOf_cons; do 3 apply prefixOf_app;
             apply prefixOf_cons; do 2 apply prefixOf_app).
    rewrite Hc, Hw1
      by (by do 2 apply prefixOf_app; apply prefixOf_cons;
             do 2 apply prefixOf_app).
    rewrite Hpv
      by (by apply prefixOf_app, prefixOf_cons; do 2 apply prefixOf_app).
    rewrite take_bytes_app.
    rewrite Hw2 by (by apply prefixOf_cons; do 2 apply prefixOf_app).
    rewrite Hc', Hw3 by (by apply prefixOf_app).
    by rewrite Hp'.
  - destruct (Ascii.eqb c' "}"%char) eqn:Hc''; [|discriminate].
    intros [= <- <-].
    exists (String k p0 +:+ w0 +:+ String c (w1 +:+ pv +:+ w2
              +:+ String c' "")).
    split; [by bytes_assoc|].
    intros q Hq. bytes_assoc. cbn [json.parseMembers].
    rewrite Hk, Hp0, Hw0
      by (by apply prefixOf_cons; do 3 apply prefixOf_app;
             apply prefixOf_cons).
    rewrite Hc, Hw1
      by (by do 2 apply prefixOf_app; apply prefixOf_cons).
    rewrite Hpv by (by apply prefixOf_app, prefixOf_cons).
    rewrite take_bytes_app.
    rewrite Hw2 by (by apply prefixOf_cons).
    by rewrite Hc', Hc''.
Qed.

Lemma parseArray_truncates : truncates (json.parseArray parseNested).
Proof.
  intros s x r. unfold json.parseArray.
  destruct (json.skipSpace s) as [|c t] eqn:Hsk; [discriminate|].
  pose proof (skipSpace_head _ _ _ Hsk) as Hns.
  apply skipSpace_cut in Hsk as (w & -> & Hw).
  destruct (Ascii.eqb c "]"%char) eqn:Hc.
  - intros [= <- <-]. exists (w +:+ String c ""). split; [by bytes_assoc|].
    intros q Hq. bytes_assoc.
    rewrite Hw by (by apply prefixOf_cons). by rewrite Hc.
  - destruct (json.parseElems _ _ _) as [[vs r']|] eqn:He; [|discriminate].
    intros [= <- <-].
    pose proof (parseElems_shrinks _ parseNested_shrinks _ _ _ _ He) as Hlt.
    apply parseElems_truncates in He as (p & Hp & He).
    destruct p as [|c0 p].
    { rewrite bytes_app_nil_l in Hp. rewrite <- Hp in Hlt. lia. }
    rewrite bytes_app_cons in Hp. injection Hp as <- ->.
    exists (w +:+ String c p). split; [by bytes_assoc|].
    intros q Hq. bytes_assoc.
    rewrite Hw by (by apply prefixOf_cons, prefixOf_app). rewrite Hc.
    rewrite (parseElems_fuel _ parseNested_shrinks
               (len (String c (p +:+ r')))).
    + pose proof (He _ Hq) as He'. rewrite bytes_app_cons in He'.
      by rewrite He'.
    + apply prefixOf_length in Hq. cbn. rewrite !bytes_app_length. lia.
    + lia.
Qed.

Lemma parseObject_truncates : truncates (json.parseObject parseNested).
Proof.
  intros s x r. unfold json.parseObject.
  destruct (json.skipSpace s) as [|c t] eqn:Hsk; [discriminate|].
  apply skipSpace_cut in Hsk as (w & -> & Hw).
  destruct (Ascii.eqb c "}"%char) eqn:Hc.
  - intros [= <- <-]. exists (w +:+ String c ""). split; [by bytes_assoc|].
    intros q Hq. bytes_assoc.
    rewrite Hw by (by apply prefixOf_cons). by rewrite Hc.
  - destruct (json.parseMembers _ _ _) as [[ms r']|] eqn:He; [|discriminate].
    intros [= <- <-].
    pose proof (parseMembers_shrinks _ parseNested_shrinks _ _ _ _ He) as Hlt.
    apply parseMembers_truncates in He as (p & Hp & He).
    destruct p as [|c0 p].
    { rewrite bytes_app_nil_l in Hp. rewrite <- Hp in Hlt. lia. }
    rewrite bytes_app_cons in Hp. injection Hp as <- ->.
    exists (w +:+ String c p). split; [by bytes_assoc|].
    intros q Hq. bytes_assoc.
    rewrite Hw by (by apply prefixOf_cons, prefixOf_app). rewrite Hc.
    rewrite (parseMembers_fuel _ parseNested_shrinks
               (len (String c (p +:+ r')))).
    + pose proof (He _ Hq) as He'. rewrite bytes_app_cons in He'.
      by rewrite He'.
    + apply prefixOf_length in Hq. cbn. rewrite !bytes_app_length. lia.
    + lia.
Qed.

End nested_truncates.

(** A scanner that reads at least one byte reads the first byte of its
    input. *)
Lemma truncates_cons {A} (f : string → option (A * string)) c t x r :
  truncates f → f (String c t) = Some (x, r) → (len r < len (String c t))%nat →
  ∃ p, t = p +:+ r
       ∧ ∀ q, prefixOf q r → f (String c (p +:+ q)) = Some (x, q).
Proof.
  intros Hf H Hlt. apply Hf in H as (p & Hp & Hq).
  destruct p as [|c0 p].
  { rewrite bytes_app_nil_l in Hp. rewrite <- Hp in Hlt. lia. }
  rewrite bytes_app_cons in Hp. injection Hp as <- ->.
  exists p. split; [done|]. intros q Hpre. by apply Hq.
Qed.

Lemma scanNumber_value_truncates :
  truncates (λ s, match json.scanNumber s with
                  | Some (lit, r) => Some (json.Number lit, r)
                  | None => None
                  end).
Proof.
  intros s x r. destruct (json.scanNumber s) as [[lit r']|] eqn:Hn;
    [|discriminate].
  intros [= <- <-]. apply scanNumber_truncates in Hn as [-> Hq].
  exists lit. split; [done|]. intros q Hpre. by rewrite (Hq _ Hpre).
Qed.

Lemma parseValue_truncates depth : truncates (json.parseValue depth).
Proof.
  induction depth as [|d IH]; intros s x r; destruct s as [|c t];
    try discriminate; cbn [json.parseValue].
  all: destruct (Ascii.eqb c "{"%char) eqn:Ho;
    [first [discriminate
           | intros H;
             apply (parseObject_truncates _ (parseValue_shrinks d) IH) in H
               as (p & -> & Hp);
             exists (String c p); split; [done|];
             intros q Hq; rewrite bytes_app_cons; cbn [json.parseValue];
             by rewrite Ho, (Hp _ Hq)]|].
  all: destruct (Ascii.eqb c "["%char) eqn:Ha;
    [first [discriminate
           | intros H;
             apply (parseArray_truncates _ (parseValue_shrinks d) IH) in H
               as (p & -> & Hp);
             exists (String c p); split; [done|];
             intros q Hq; rewrite bytes_app_cons; cbn [json.parseValue];
             by rewrite Ho, Ha, (Hp _ Hq)]|].
  all: destruct (Ascii.eqb c dquote) eqn:Hs;
    [destruct (json.scanString t) as [[body r']|] eqn:Hb; [|discriminate];
     apply (scanString_truncates _ _ _ _ (le_n _)) in Hb as (p & -> & Hp);
     intros [= <- <-]; exists (String c p); split; [done|];
     intros q Hq; rewrite bytes_app_cons; cbn [json.parseValue];
     by rewrite Ho, Ha, Hs, Hp|].
  all: destruct (Ascii.eqb c "t"%char) eqn:Ht;
    [intros H; pose proof H as Hlt; apply literal_shrinks in Hlt; [|done];
     apply truncates_cons in H as (p & -> & Hq);
       [|apply literal_truncates | done];
     exists (String c p); split; [done|];
     intros q Hpre; rewrite bytes_app_cons; cbn [json.parseValue];
     by rewrite Ho, Ha, Hs, Ht, (Hq _ Hpre)|].
  all: destruct (Ascii.eqb c "f"%char) eqn:Hf;
    [intros H; pose proof H as Hlt; apply literal_shrinks in Hlt; [|done];
     apply truncates_cons in H as (p & -> & Hq);
       [|apply literal_truncates | done];
     exists (String c p); split; [done|];
     intros q Hpre; rewrite bytes_app_cons; cbn [json.parseValue];
     by rewrite Ho, Ha, Hs, Ht, Hf, (Hq _ Hpre)|].
  all: destruct (Ascii.eqb c "n"%char) eqn:Hn;
    [intros H; pose proof H as Hlt; apply literal_shrinks in Hlt; [|done];
     apply truncates_cons in H as (p & -> & Hq);
       [|apply literal_truncates | done];
     exists (String c p); split; [done|];
     intros q Hpre; rewrite bytes_app_cons; cbn [json.parseValue];
     by rewrite Ho, Ha, Hs, Ht, Hf, Hn, (Hq _ Hpre)|].
  all: destruct (_ || _) eqn:Hd; [|discriminate].
  all: intros H;
    assert (Hlt : (len r < len (String c t))%nat)
      by (destruct (json.scanNumber _) as [[lit r']|] eqn:Hnum;
          [|discriminate]; injection H as <- <-;
          by apply scanNumber_shrinks in Hnum).
  all: apply (truncates_cons _ _ _ _ _ scanNumber_value_truncates) in H
         as (p & -> & Hq); [|done].
  all: exists (String c p); split; [done|].
  all: intros q Hpre; rewrite bytes_app_cons; cbn [json.parseValue].
  all: by rewrite Ho, Ha, Hs, Ht, Hf, Hn, Hd, (Hq _ Hpre).
Qed.

Section nested_mono.

Variables parseNested parseNested' : string → option (json.value * string).
Hypothesis parseNested_sub :
  ∀ s x, parseNested s = Some x → parseNested' s = Some x.

Lemma parseElems_mono n :
  ∀ s x, json.parseElems parseNested n s = Some x →
         json.parseElems parseNested' n s = Some x.
Proof.
  induction n as [|n IH]; intros s x; cbn [json.parseElems]; [done|].
  destruct (parseNested s) as [[v r]|] eqn:Hv; [|discriminate].
  rewrite (parseNested_sub _ _ Hv).
  destruct (json.skipSpace r) as [|c r']; [done|].
  destruct (Ascii.eqb c ","%char); [|done].
  destruct (json.parseElems parseNested n _) as [[vs r'']|] eqn:He;
    [|discriminate].
  by rewrite (IH _ _ He).
Qed.

Lemma parseMembers_mono n :
  ∀ s x, json.parseMembers parseNested n s = Some x →
         json.parseMembers parseNested' n s = Some x.
Proof.
  induction n as [|n IH]; intros s x; cbn [json.parseMembers]; [done|].
  destruct s as [|k t]; [done|].
  destruct (Ascii.eqb k dquote); [|done].
  destruct (json.scanString t) as [[key r0]|]; [|done].
  destruct (json.skipSpace r0) as [|c r1]; [done|].
  destruct (Ascii.eqb c ":"%char); [|done].
  destruct (parseNested (json.skipSpace r1)) as [[v r2]|] eqn:Hv;
    [|discriminate].
  rewrite (parseNested_sub _ _ Hv).
  destruct (json.skipSpace r2) as [|c' r3]; [done|].
  destruct (Ascii.eqb c' ","%char); [|done].
  destruct (json.parseMembers parseNested n _) as [[ms r4]|] eqn:He;
    [|discriminate].
  by rewrite (IH _ _ He).
Qed.

Lemma parseArray_mono s x :
  json.parseArray parseNested s = Some x →
  json.parseArray parseNested' s = Some x.
Proof.
  unfold json.parseArray. destruct (json.skipSpace s) as [|c t]; [done|].
  destruct (Ascii.eqb c "]"%char); [done|].
  destruct (json.parseElems parseNested _ _) as [[vs r]|] eqn:He;
    [|discriminate].
  by rewrite (parseElems_mono _ _ _ He).
Qed.

Lemma parseObject_mono s x :
  json.parseObject parseNested s = Some x →
  json.parseObject parseNested' s = Some x.
Proof.
  unfold json.parseObject. destruct (json.skipSpace s) as [|c t]; [done|].
  destruct (Ascii.eqb c "}"%char); [done|].
  destruct (json.parseMembers parseNested _ _) as [[ms r]|] eqn:He;
    [|discriminate].
  by rewrite (parseMembers_mono _ _ _ He).
Qed.

End nested_mono.

(** What is read within some depth is read within a greater one. *)
Lemma parseValue_mono depth :
  ∀ s x, json.parseValue depth s = Some x →
         json.parseValue (S depth) s = Some x.
Proof.
  induction depth as [|d IH]; intros s x; destruct s as [|c t]; try done;
    cbn [json.parseValue].
  all: destruct (Ascii.eqb c "{"%char);
    [first [discriminate | by apply parseObject_mono]|].
  all: destruct (Ascii.eqb c "["%char);
    [first [discriminate | by apply parseArray_mono]|].
  all: done.
Qed.

(** The members of a parsed object: each value was read by the nested
    parser at a byte that is not white space, and [raw] is what was
    read. *)
Lemma parseMembers_inv parseNested n :
  ∀ s ms r, json.parseMembers parseNested n s = Some (ms, r) →
    Forall (λ m : string * string * json.value,
              ∃ r1 r2, parseNested (json.skipSpace r1) = Some (m.2, r2)
                ∧ m.1.2 = take_bytes (len (json.skipSpace r1) - len r2)
                            (json.skipSpace r1)) ms.
Proof.
  induction n as [|n IH]; intros s ms r; cbn [json.parseMembers];
    [discriminate|].
  destruct s as [|k t]; [discriminate|].
  destruct (Ascii.eqb k dquote); [|discriminate].
  destruct (json.scanString t) as [[key r0]|]; [|discriminate].
  destruct (json.skipSpace r0) as [|c r1]; [discriminate|].
  destruct (Ascii.eqb c ":"%char); [|discriminate].
  destruct (parseNested (json.skipSpace r1)) as [[v r2]|] eqn:Hv;
    [|discriminate].
  destruct (json.skipSpace r2) as [|c' r3]; [discriminate|].
  destruct (Ascii.eqb c' ","%char).
  - destruct (json.parseMembers parseNested n _) as [[ms' r4]|] eqn:He;
      [|discriminate].
    intros [= <- <-]. constructor; [by exists r1, r2 | by eapply IH].
  - destruct (Ascii.eqb c' "}"%char); [|discriminate].
    intros [= <- <-]. constructor; [by exists r1, r2 | constructor].
Qed.

Lemma parseValue_Object_inv depth s members r :
  json.parseValue depth s = Some (json.Object members, r) →
  ∃ d, depth = S d
       ∧ Forall (λ m : string * string * json.value,
                   ∃ r1 r2,
                     json.parseValue d (json.skipSpace r1) = Some (m.2, r2)
                     ∧ m.1.2 = take_bytes (len (json.skipSpace r1) - len r2)
                                 (json.skipSpace r1)) members.
Proof.
  destruct depth as [|d]; destruct s as [|c t]; try discriminate;
    cbn [json.parseValue].
  all: destruct (Ascii.eqb c "{"%char);
    [first [discriminate
           | intros H; exists d; split; [done|];
             unfold json.parseObject in H;
             destruct (json.skipSpace t) as [|c' t']; [discriminate|];
             destruct (Ascii.eqb c' "}"%char); [by injection H as <- _|];
             destruct (json.parseMembers _ _ _) as [[ms r']|] eqn:He;
               [|discriminate];
             injection H as <- _; by eapply parseMembers_inv]|].
  all: destruct (Ascii.eqb c "["%char);
    [first [discriminate
           | unfold json.parseArray;
             destruct (json.skipSpace t) as [|c' t']; [discriminate|];
             destruct (Ascii.eqb c' "]"%char); [discriminate|];
             by destruct (json.parseElems _ _ _) as [[vs r']|]]|].
  all: destruct (Ascii.eqb c dquote);
    [by destruct (json.scanString t) as [[body r']|]|].
  all: unfold json.literal.
  all: repeat (destruct (Ascii.eqb c _);
               [by destruct (json.hasPrefix _ _)|]).
  all: destruct (_ || _); [|discriminate].
  all: by destruct (json.scanNumber _) as [[lit r']|].
Qed.

(** Round trip of [json.RawMessage]: the bytes kept for a member of a
    parsed object are themselves valid JSON, and parse to the value of
    that member. *)
Lemma member_raw_parses data members key raw v :
  json.parse data = Some (json.Object members) →
  (key, raw, v) ∈ members →
  json.parse raw = Some v.
Proof.
  unfold json.parse at 1.
  remember json.maxNestingDepth as depth eqn:Hdepth.
  destruct (json.parseValue depth _) as [[v0 r]|] eqn:Hp; [|discriminate].
  destruct (json.skipSpace r); [|discriminate]. intros [= ->] Hin.
  apply parseValue_Object_inv in Hp as (d & -> & Hms).
  rewrite Forall_forall in Hms.
  destruct (Hms _ Hin) as (r1 & r2 & Hv & Hraw). cbn in Hv, Hraw.
  pose proof (parseValue_shrinks _ _ _ _ Hv) as Hlt.
  destruct (json.skipSpace r1) as [|c sv] eqn:Hsk; [cbn in Hlt; lia|].
  pose proof (skipSpace_head _ _ _ Hsk) as Hc.
  apply truncates_cons in Hv as (p & -> & Hq);
    [|apply parseValue_truncates | done].
  specialize (Hq "" (prefixOf_nil _)). rewrite bytes_app_nil_r in Hq.
  change (String c (p +:+ r2)) with (String c p +:+ r2) in Hraw.
  rewrite take_bytes_app in Hraw. subst raw.
  unfold json.parse. rewrite <- Hdepth, (skipSpace_nonspace _ _ Hc).
  by rewrite (parseValue_mono _ _ _ Hq).
Qed.

(** ** Requests as trees *)

Lemma lastMember_elem name members raw v :
  lastMember name members = Some (raw, v) → ∃ key, (key, raw, v) ∈ members.
Proof.
  induction members as [|[[key raw'] v'] members IH]; cbn; [done|].
  destruct (lastMember name members) as [m|].
  - intros [= ->]. destruct (IH eq_refl) as [key' Hin].
    exists key'. by right.
  - destruct (json.fieldIs name key); [|done]. intros [= -> ->].
    exists key. by left.
Qed.

(** The bytes of the last member named [name] parse to its value; with
    no such member the bytes are empty and do not parse. *)
Lemma lastMember_parse data members name :
  json.parse data = Some (json.Object members) →
  json.parse (default "" (fst <$> lastMember name members))
  = snd <$> lastMember name members.
Proof.
  intros Hparse. destruct (lastMember name members) as [[raw v]|] eqn:Hl.
  - apply lastMember_elem in Hl as [key Hin]. cbn.
    by eapply member_raw_parses.
  - reflexivity.
Qed.

Lemma wellFormed_object body members req :
  json.parse body = Some (json.Object members) →
  wellFormed body req →
  req = (JSONRPCRequest.store (json.Object members) JSONRPCRequest.zero).1.
Proof.
  intros Hparse Hwf.
  pose proof (Unmarshal_parsed JSONRPCRequest.store body
                JSONRPCRequest.zero _ Hparse) as Hd.
  unfold wellFormed in Hwf. rewrite Hd in Hwf. by rewrite Hwf.
Qed.

(** What the params of [tools/call] decode to, from their tree. *)
Lemma callParams_of_tree raw tree :
  json.parse raw = tree →
  let params := (json.Unmarshal callParams.store raw callParams.zero).1 in
  callParams.Name params = default "" (lastString "name" (membersOf tree))
  ∧ callParams.Arguments params
    = default "" (fst <$> lastMember "arguments" (membersOf tree))
  ∧ json.parse (callParams.Arguments params)
    = snd <$> lastMember "arguments" (membersOf tree).
Proof.
  intros Hparse. destruct tree as [v|].
  - rewrite (Unmarshal_parsed _ _ _ _ Hparse). unfold callParams.store.
    destruct v; try by (cbn; split_and!).
    cbn zeta. rewrite callParams_Name_last, callParams_Arguments_last.
    split_and!; [done.. |]. by eapply lastMember_parse.
  - unfold json.Unmarshal. rewrite Hparse. by cbn.
Qed.

(** What the arguments of [echo] decode to, from their tree. *)
Lemma echoParams_of_tree raw tree :
  json.parse raw = tree →
  echoParams.Message (json.Unmarshal echoParams.store raw echoParams.zero).1
  = default "" (lastString "message" (membersOf tree)).
Proof.
  intros Hparse. destruct tree as [v|].
  - rewrite (Unmarshal_parsed _ _ _ _ Hparse). unfold echoParams.store.
    destruct v; try done. apply echoParams_Message_last.
  - unfold json.Unmarshal. by rewrite Hparse.
Qed.

(** X11: the params the handler decodes are the bytes of the params
    member of the body, and they are valid JSON with that member's
    value: decoding the params can meet a syntax error only when the
    body has no params member. *)
Theorem params_read_again body members req :
  json.parse body = Some (json.Object members) →
  wellFormed body req →
  JSONRPCRequest.Params req = default "" (fst <$> lastMember "params" members)
  ∧ json.parse (JSONRPCRequest.Params req)
    = snd <$> lastMember "params" members
  ∧ (json.Valid (JSONRPCRequest.Params req) = false
     ↔ lastMember "params" members = None).
Proof.
  intros Hparse Hwf.
  assert (Hp : JSONRPCRequest.Params req
               = default "" (fst <$> lastMember "params" members)).
  { rewrite (wellFormed_object _ _ _ Hparse Hwf).
    apply JSONRPCRequest_Params_last. }
  assert (Hv : json.parse (JSONRPCRequest.Params req)
               = snd <$> lastMember "params" members).
  { rewrite Hp. by eapply lastMember_parse. }
  split_and!; [done.. |]. unfold json.Valid. rewrite Hv.
  by destruct (lastMember "params" members).
Qed.

Lemma params_read_again_witness :
  let members :=
    [("method", js "'x'", json.Str "x");
     ("params", js "{'a' : [1, 2]}",
      json.Object [("a", "[1, 2]",
                    json.Array [json.Number "1"; json.Number "2"])])] in
  let req := JSONRPCRequest.mk "" nil_ "x" (js "{'a' : [1, 2]}") in
  JSONRPCRequest.Params req = default "" (fst <$> lastMember "params" members)
  ∧ json.parse (JSONRPCRequest.Params req)
    = snd <$> lastMember "params" members
  ∧ (json.Valid (JSONRPCRequest.Params req) = false
     ↔ lastMember "params" members = None).
Proof.
  apply (params_read_again (js "{'method':'x', 'params' : {'a' : [1, 2]} }"));
    vm_compute; reflexivity.
Defined.

Lemma dispatch_call_tree rt s visit body members req :
  json.parse body = Some (json.Object members) →
  wellFormed body req →
  lastString "method" members = Some "tools/call" →
  let params := membersOf (snd <$> lastMember "params" members) in
  let args :=
    (json.Unmarshal callParams.store (JSONRPCRequest.Params req)
       callParams.zero).1 in
  Out (handleMCP rt s visit (post body))
  = EncodeResponse
      (resultResponse (JSONRPCRequest.ID req)
         (executeTool rt s (callParams.Name args) (callParams.Arguments args)))
  ∧ callParams.Name args = default "" (lastString "name" params)
  ∧ callParams.Arguments args
    = default "" (fst <$> lastMember "arguments" params)
  ∧ json.parse (callParams.Arguments args)
    = snd <$> lastMember "arguments" params.
Proof.
  intros Hparse Hwf Hmethod params args.
  pose proof (wellFormed_object _ _ _ Hparse Hwf) as Hreq.
  assert (Hm : JSONRPCRequest.Method req = "tools/call").
  { rewrite Hreq, JSONRPCRequest_Method_last. by rewrite Hmethod. }
  assert (Hp : json.parse (JSONRPCRequest.Params req)
               = snd <$> lastMember "params" members).
  { rewrite Hreq, JSONRPCRequest_Params_last. by eapply lastMember_parse. }
  split.
  - rewrite (handleMCP_wellFormed _ _ _ _ _ Hwf).
    by rewrite dispatch_tools_call.
  - apply (callParams_of_tree _ _ Hp).
Qed.

(** X12: a [tools/call] runs the tool named by the last member named
    name that holds a string, within the last member named params of
    the body, on the bytes of the last member named arguments there;
    a name or arguments that are missing are empty. *)
Theorem tools_call_runs_last_name rt s visit body members req :
  json.parse body = Some (json.Object members) →
  wellFormed body req →
  lastString "method" members = Some "tools/call" →
  let params := membersOf (snd <$> lastMember "params" members) in
  Out (handleMCP rt s visit (post body))
  = EncodeResponse
      (resultResponse (JSONRPCRequest.ID req)
         (executeTool rt s (default "" (lastString "name" params))
            (default "" (fst <$> lastMember "arguments" params)))).
Proof.
  intros Hparse Hwf Hmethod params.
  destruct (dispatch_call_tree rt s visit _ _ _ Hparse Hwf Hmethod)
    as (Hout & Hname & Hargs & _).
  rewrite Hout. fold params in Hname, Hargs. by rewrite Hname, Hargs.
Qed.

Lemma tools_call_runs_last_name_witness :
  let params := membersOf (snd <$> lastMember "params" exampleCallMembers) in
  Out (handleMCP exampleHost server exampleVisit (post exampleCall))
  = EncodeResponse
      (resultResponse (JSONRPCRequest.ID exampleCallRequest)
         (executeTool exampleHost server
            (default "" (lastString "name" params))
            (default "" (fst <$> lastMember "arguments" params)))).
Proof.
  apply (tools_call_runs_last_name exampleHost server exampleVisit
           exampleCall exampleCallMembers exampleCallRequest);
    vm_compute; reflexivity.
Defined.

(** X13: a [tools/call] of echo, read off the tree of the body: the
    answer is "Echo: " followed by the last member named message that
    holds a string, within the last member named arguments of the
    params; it is "Echo: " alone when there is none. *)
Theorem tools_call_echo_of_tree rt s visit body members req :
  json.parse body = Some (json.Object members) →
  wellFormed body req →
  lastString "method" members = Some "tools/call" →
  let params := membersOf (snd <$> lastMember "params" members) in
  let arguments := membersOf (snd <$> lastMember "arguments" params) in
  lastString "name" params = Some "echo" →
  Out (handleMCP rt s visit (post body))
  = EncodeResponse
      (resultResponse (JSONRPCRequest.ID req)
         (textContent
            ("Echo: " +:+ default "" (lastString "message" arguments)))).
Proof.
  intros Hparse Hwf Hmethod params arguments Hecho.
  destruct (dispatch_call_tree rt s visit _ _ _ Hparse Hwf Hmethod)
    as (Hout & Hname & _ & Hargs).
  rewrite Hout. fold params in Hname, Hargs.
  rewrite Hecho in Hname. cbn in Hname.
  rewrite executeTool_echo by done.
  by rewrite (echoParams_of_tree _ _ Hargs).
Qed.

Lemma tools_call_echo_of_tree_witness :
  let params := membersOf (snd <$> lastMember "params" exampleCallMembers) in
  let arguments := membersOf (snd <$> lastMember "arguments" params) in
  Out (handleMCP exampleHost server exampleVisit (post exampleCall))
  = EncodeResponse
      (resultResponse (JSONRPCRequest.ID exampleCallRequest)
         (textContent
            ("Echo: " +:+ default "" (lastString "message" arguments)))).
Proof.
  apply (tools_call_echo_of_tree exampleHost server exampleVisit
           exampleCall exampleCallMembers exampleCallRequest);
    vm_compute; reflexivity.
Defined.

(** ** The host *)

Lemma dispatch_host_unread rt rt' s visit req :
  (JSONRPCRequest.Method req = "tools/call" →
   callParams.Name
     (json.Unmarshal callParams.store (JSONRPCRequest.Params req)
        callParams.zero).1 ≠ "system_info") →
  dispatch rt s visit req = dispatch rt' s visit req.
Proof.
  unfold dispatch. intros Hname. cbv zeta.
  destruct (String.eqb _ "initialize"); [reflexivity|].
  destruct (String.eqb _ "tools/list"); [reflexivity|].
  destruct (String.eqb_spec (JSONRPCRequest.Method req) "tools/call")
    as [Hm|Hm]; [|reflexivity].
  apply Hname, String.eqb_neq in Hm.
  unfold executeTool. by rewrite Hm.
Qed.

(** X14: the facts about the host (system, architecture, Go version,
    number of CPUs) reach a reply through the system_info tool only:
    a request that is not a well-formed call of system_info gets the
    same reply on any two hosts. *)
Theorem host_facts_only_in_system_info rt rt' s visit r :
  (∀ body req, http.Body r = Some body → wellFormed body req →
     JSONRPCRequest.Method req = "tools/call" →
     callParams.Name
       (json.Unmarshal callParams.store (JSONRPCRequest.Params req)
          callParams.zero).1 ≠ "system_info") →
  handleMCP rt s visit r = handleMCP rt' s visit r.
Proof.
  intros Hnot. unfold handleMCP. apply f_equal.
  destruct (String.eqb _ "OPTIONS"); [reflexivity|].
  destruct (String.eqb _ "GET"); [reflexivity|].
  destruct (negb _); [reflexivity|].
  destruct (http.Body r) as [body|]; [|reflexivity].
  destruct (json.Unmarshal _ _ _) as [req [e|]] eqn:Hd; [reflexivity|].
  apply f_equal, dispatch_host_unread. by eapply Hnot.
Qed.

Lemma host_facts_only_in_system_info_witness :
  handleMCP exampleHost server exampleVisit (post exampleCall)
  = handleMCP (runtime.mk "plan9" "arm" "go1.4" 1) server exampleVisit
      (post exampleCall).
Proof.
  apply (host_facts_only_in_system_info exampleHost
           (runtime.mk "plan9" "arm" "go1.4" 1) server exampleVisit).
  intros body req [= <-] Hwf _. unfold wellFormed in Hwf.
  vm_compute in Hwf. injection Hwf as <-. vm_compute. discriminate.
Defined.

Lemma digits_digit d t acc n :
  (0 ≤ d < 10)%Z →
  strconv.digits (String (n2b (Z.to_N (48 + d))) t) acc n
  = strconv.digits t (10 * acc + d)%Z (n + 1)%Z.
Proof.
  intros Hd.
  assert (d = 0 ∨ d = 1 ∨ d = 2 ∨ d = 3 ∨ d = 4 ∨ d = 5 ∨ d = 6 ∨ d = 7
          ∨ d = 8 ∨ d = 9)%Z as Hcases by lia.
  cbn [strconv.digits].
  assert (H1 : strconv.isDigit (n2b (Z.to_N (48 + d))) = true)
    by (destruct Hcases as [->|[->|[->|[->|[->|[->|[->|[->|[->| ->]]]]]]]]];
        vm_compute; reflexivity).
  assert (H2 : Z.of_N (b2n (n2b (Z.to_N (48 + d)))) = (48 + d)%Z)
    by (destruct Hcases as [->|[->|[->|[->|[->|[->|[->|[->|[->| ->]]]]]]]]];
        vm_compute; reflexivity).
  rewrite H1, H2. f_equal. f_equal. lia.
Qed.

Lemma utoa_digits fuel :
  ∀ n text acc k, (0 ≤ n)%Z → (Z.to_nat n ≤ fuel)%nat →
    ∃ m, (0 < m)%Z
      ∧ strconv.digits (strconv.utoa fuel n text) acc k
        = strconv.digits text (acc * 10 ^ m + n)%Z (k + m)%Z.
Proof.
  induction fuel as [|fuel IH]; intros n text acc k Hn Hfuel.
  - assert (n = 0)%Z as -> by lia. exists 1%Z. split; [lia|].
    cbn [strconv.utoa]. rewrite Z.mod_0_l, Z.pow_1_r by done.
    rewrite digits_digit by done. f_equal. f_equal. lia.
  - cbn [strconv.utoa]. destruct (n <? 10)%Z eqn:Hlt.
    + apply Z.ltb_lt in Hlt. exists 1%Z. split; [lia|].
      rewrite Z.mod_small, Z.pow_1_r by lia. rewrite digits_digit by lia.
      f_equal. f_equal. lia.
    + apply Z.ltb_ge in Hlt.
      destruct (IH (n / 10)%Z
                  (String (n2b (Z.to_N (48 + n mod 10))) text) acc k)
        as (m & Hm & Heq).
      { apply Z.div_pos; lia. }
      { assert (n / 10 < n)%Z by (apply Z.div_lt; lia). lia. }
      exists (m + 1)%Z. split; [lia|]. rewrite Heq.
      rewrite digits_digit by (apply Z.mod_pos_bound; lia).
      rewrite Z.pow_add_r, Z.pow_1_r by lia.
      pose proof (Z.div_mod n 10 ltac:(lia)) as Hdm.
      replace (10 * (acc * 10 ^ m + n / 10) + n mod 10)%Z
        with (acc * (10 ^ m * 10) + n)%Z by lia.
      by replace (k + m + 1)%Z with (k + (m + 1))%Z by lia.
Qed.

(** X15: system_info answers with one text entry of four lines, and
    the last line gives the number of CPUs in decimal: reading its
    digits gives the number back. The arguments are not looked at. *)
Theorem system_info_text rt s args :
  (0 ≤ runtime.NumCPU rt)%Z →
  ∃ cpus m,
    executeTool rt s "system_info" args
    = textContent
        ("OS: " +:+ runtime.GOOS rt +:+ String "010"
           ("Arch: " +:+ runtime.GOARCH rt +:+ String "010"
              ("Go Version: " +:+ runtime.Version rt +:+ String "010"
                 ("CPUs: " +:+ cpus))))
    ∧ strconv.digits cpus 0 0 = (runtime.NumCPU rt, m, "").
Proof.
  intros Hn. unfold executeTool, strconv.Itoa. cbn [String.eqb].
  assert (Hneg : (runtime.NumCPU rt <? 0)%Z = false) by (apply Z.ltb_ge; lia).
  rewrite Hneg.
  destruct (utoa_digits (Z.to_nat (runtime.NumCPU rt)) (runtime.NumCPU rt)
              "" 0 0 Hn (le_n _)) as (m & _ & Hd).
  eexists _, m. split; [reflexivity|]. rewrite Hd.
  cbn [strconv.digits]. by rewrite Z.mul_0_l, !Z.add_0_l.
Qed.

Lemma system_info_text_witness :
  ∃ cpus m,
    executeTool exampleHost server "system_info" "{}"
    = textContent
        ("OS: " +:+ runtime.GOOS exampleHost +:+ String "010"
           ("Arch: " +:+ runtime.GOARCH exampleHost +:+ String "010"
              ("Go Version: " +:+ runtime.Version exampleHost +:+ String "010"
                 ("CPUs: " +:+ cpus))))
    ∧ strconv.digits cpus 0 0 = (runtime.NumCPU exampleHost, m, "").
Proof.
  apply (system_info_text exampleHost server "{}"). vm_compute. discriminate.
Defined.

(** ** Members of the wrong type *)

Lemma storeMembers_error_kept {T}
    (field : string → json.RawMessage → json.value → T → T * option json.error)
    members :
  ∀ acc, is_Some acc.2 →
    is_Some (fold_left (json.storeMember field) members acc).2.
Proof.
  induction members as [|[[key raw] v] members IH]; intros acc Hacc; [done|].
  cbn [fold_left]. apply IH. destruct acc as [t e]. unfold json.storeMember.
  destruct (field key raw v t) as [t' e']. cbn in *.
  destruct Hacc as [e0 ->]. by eexists.
Qed.

Lemma storeMembers_error_raised {T}
    (field : string → json.RawMessage → json.value → T → T * option json.error)
    members key raw v :
  (key, raw, v) ∈ members →
  (∀ t, is_Some (field key raw v t).2) →
  ∀ acc, is_Some (fold_left (json.storeMember field) members acc).2.
Proof.
  intros Hin Hfail.
  induction members as [|m members IH]; intros acc;
    [by apply elem_of_nil in Hin|].
  cbn [fold_left]. apply elem_of_cons in Hin as [<- | Hin]; [|by apply IH].
  apply storeMembers_error_kept. destruct acc as [t e].
  unfold json.storeMember. specialize (Hfail t).
  destruct (field key raw v t) as [t' e']. cbn in *.
  destruct Hfail as [e0 ->]. destruct e; by eexists.
Qed.

(** X16: in a request object, a member named jsonrpc or method that
    holds anything but a string or null makes the whole request a
    parse error (-32700, nil identifier), whatever the other members
    are: a numeric protocol tag is answered like a body that is not
    JSON. *)
Theorem mistyped_member_is_parse_error rt s visit body members key raw v :
  json.parse body = Some (json.Object members) →
  (key, raw, v) ∈ members →
  json.fieldIs "jsonrpc" key = true ∨ json.fieldIs "method" key = true →
  match v with json.Str _ | json.Null => False | _ => True end →
  Out (handleMCP rt s visit (post body)) = EncodeResponse parseErrorResponse.
Proof.
  intros Hparse Hin Hkey Hv.
  assert (Herr : is_Some (json.Unmarshal JSONRPCRequest.store body
                            JSONRPCRequest.zero).2).
  { rewrite (Unmarshal_parsed _ _ _ _ Hparse).
    unfold JSONRPCRequest.store, json.storeStruct.
    eapply storeMembers_error_raised; [exact Hin|].
    intros t. unfold JSONRPCRequest.field.
    destruct Hkey as [Hj | Hm].
    - rewrite Hj. destruct v; try done; by eexists.
    - rewrite (fieldIs_exclusive "method" "jsonrpc") by done.
      rewrite (fieldIs_exclusive "method" "id") by done.
      rewrite Hm. destruct v; try done; by eexists. }
  destruct (json.Unmarshal JSONRPCRequest.store body JSONRPCRequest.zero)
    as [req oe] eqn:Hd.
  destruct Herr as [e He]. cbn in He. subst oe.
  by eapply handleMCP_decode_error.
Qed.

Lemma mistyped_member_is_parse_error_witness :
  Out (handleMCP exampleHost server exampleVisit
         (post (js "{'jsonrpc':2.0,'id':1,'method':'initialize'}")))
  = EncodeResponse parseErrorResponse.
Proof.
  apply (mistyped_member_is_parse_error exampleHost server exampleVisit
           (js "{'jsonrpc':2.0,'id':1,'method':'initialize'}")
           [("jsonrpc", "2.0", json.Number "2.0");
            ("id", "1", json.Number "1");
            ("method", js "'initialize'", json.Str "initialize")]
           "jsonrpc" "2.0" (json.Number "2.0")).
  - vm_compute. reflexivity.
  - by left.
  - left. vm_compute. reflexivity.
  - exact I.
Defined.

(** ** The identifier of a request *)

(** Without an error, [storeInterface] stores what [valueInterface]
    builds. *)
Lemma storeInterface_decoded v cur x :
  json.storeInterface v cur = (x, None) → json.valueInterface v = (x, None).
Proof.
  destruct v; cbn [json.storeInterface]; try done.
  cbn [json.valueInterface].
  by destruct (strconv.ParseFloat lit).
Qed.

(** A decoding that ends without an error started without one. *)
Lemma storeMembers_no_error {T}
    (field : string → json.RawMessage → json.value → T → T * option json.error)
    members acc :
  (fold_left (json.storeMember field) members acc).2 = None → acc.2 = None.
Proof.
  intros Hnone. destruct acc.2 as [e|] eqn:He; [|done].
  destruct (storeMembers_error_kept field members acc) as [e' He'];
    [by rewrite He|]. congruence.
Qed.

(** The field [ID] after the members of an object were stored without an
    error: what the last member named [id] decodes to, and the old
    value when there is none. *)
Lemma JSONRPCRequest_ID_last members :
  ∀ acc,
    (fold_left (json.storeMember JSONRPCRequest.field) members acc).2 = None →
    match lastMember "id" members with
    | Some (_, v) =>
      json.valueInterface v
      = (JSONRPCRequest.ID
           (fold_left (json.storeMember JSONRPCRequest.field) members acc).1,
         None)
    | None =>
      JSONRPCRequest.ID
        (fold_left (json.storeMember JSONRPCRequest.field) members acc).1
      = JSONRPCRequest.ID acc.1
    end.
Proof.
  induction members as [|[[key raw] v] members IH]; intros acc Hnone; [done|].
  cbn [fold_left lastMember] in *. specialize (IH _ Hnone).
  destruct (lastMember "id" members) as [[raw' v']|]; [done|].
  apply storeMembers_no_error in Hnone.
  destruct acc as [t e]. unfold json.storeMember in *.
  unfold JSONRPCRequest.field in *.
  destruct (json.fieldIs "jsonrpc" key) eqn:Hj.
  { rewrite (fieldIs_exclusive "jsonrpc" "id") by done.
    by destruct (json.storeString v (JSONRPCRequest.JSONRPC t)). }
  destruct (json.fieldIs "id" key) eqn:Hi.
  { destruct (json.storeInterface v (JSONRPCRequest.ID t)) as [x e'] eqn:Hs.
    cbn in *. destruct e; [done|]. cbn in Hnone. subst e'.
    apply storeInterface_decoded in Hs. by rewrite IH. }
  destruct (json.fieldIs "method" key).
  { by destruct (json.storeString v (JSONRPCRequest.Method t)). }
  by destruct (json.fieldIs "params" key).
Qed.

(** A body that decodes is JSON. *)
Lemma wellFormed_parses body req :
  wellFormed body req → ∃ tree, json.parse body = Some tree.
Proof.
  intros Hwf. destruct (json.parse body) as [tree|] eqn:Hparse; [by exists tree|].
  exfalso. unfold wellFormed in Hwf.
  rewrite (Unmarshal_invalid JSONRPCRequest.store body JSONRPCRequest.zero)
    in Hwf; [done|].
  unfold json.Valid. by rewrite Hparse.
Qed.

(** The identifier of a decoded request, from the tree of its body. *)
Lemma wellFormed_ID body req tree :
  json.parse body = Some tree →
  wellFormed body req →
  match lastMember "id" (membersOf (Some tree)) with
  | Some (_, v) => json.valueInterface v = (JSONRPCRequest.ID req, None)
  | None => JSONRPCRequest.ID req = nil_
  end.
Proof.
  intros Hparse Hwf.
  pose proof (Unmarshal_parsed JSONRPCRequest.store body
                JSONRPCRequest.zero _ Hparse) as Hd.
  unfold wellFormed in Hwf. rewrite Hd in Hwf. clear Hd Hparse.
  unfold JSONRPCRequest.store, json.storeStruct in Hwf.
  destruct tree as [| | | | |members]; try done.
  - by injection Hwf as <-.
  - cbn [membersOf].
    pose proof (JSONRPCRequest_ID_last members (JSONRPCRequest.zero, None))
      as Hid.
    rewrite Hwf in Hid. cbn [fst snd] in Hid. by apply Hid.
Qed.

(** C1, as the code has it: a body that decodes as a request is JSON,
    and its response envelope carries the Go value that the body's
    identifier decodes to: the value built from the last member named
    [id] of the body, which decodes without an error (a number as the
    float64 nearest to its literal), and nil when the body has no such
    member or is [null].  This is the identifier of the decoded
    request.  The encoded envelope has exactly one of the keys [result]
    and [error]. *)
Theorem response_echoes_decoded_id rt s visit body req :
  wellFormed body req →
  ∃ tree resp,
    json.parse body = Some tree
    ∧ Out (handleMCP rt s visit (post body)) = EncodeResponse resp
    ∧ JSONRPCResponse.JSONRPC resp = "2.0"
    ∧ JSONRPCResponse.ID resp = decodedID (membersOf (Some tree))
    ∧ (∀ raw v, lastMember "id" (membersOf (Some tree)) = Some (raw, v) →
         json.valueInterface v = (JSONRPCResponse.ID resp, None))
    ∧ JSONRPCResponse.ID resp = JSONRPCRequest.ID req
    ∧ xorb (JSONRPCResponse.hasResult resp) (JSONRPCResponse.hasError resp)
      = true
    ∧ (JSONRPCResponse.keys resp = ["jsonrpc"; "id"; "result"]
       ∨ JSONRPCResponse.keys resp = ["jsonrpc"; "id"; "error"]).
Proof.
  intros Hwf. destruct (wellFormed_parses _ _ Hwf) as [tree Hparse].
  pose proof (wellFormed_ID _ _ _ Hparse Hwf) as Hid.
  exists tree, (dispatch rt s visit req).
  split; [exact Hparse|]. split; [by apply handleMCP_wellFormed|].
  assert (Hresp : JSONRPCResponse.ID (dispatch rt s visit req)
                  = JSONRPCRequest.ID req).
  { by destruct (dispatch_cases rt s visit req)
      as [(result & Hnil & ->) | ->]. }
  rewrite Hresp.
  split; [|split; [|split; [|split; [reflexivity|]]]].
  - destruct (dispatch_cases rt s visit req) as [(result & Hnil & ->) | ->];
      reflexivity.
  - unfold decodedID.
    destruct (lastMember "id" (membersOf (Some tree))) as [[raw v]|];
      [by rewrite Hid|done].
  - intros raw v Hl. by rewrite Hl in Hid.
  - destruct (dispatch_cases rt s visit req) as [(result & Hnil & ->) | ->].
    + unfold JSONRPCResponse.keys, JSONRPCResponse.hasResult; cbn.
      destruct result; try done; auto.
    + cbn. auto.
Qed.

Lemma response_echoes_decoded_id_witness :
  ∃ tree resp,
    json.parse (js "{'jsonrpc':'2.0','id':7,'method':'tools/call'}")
    = Some tree
    ∧ Out (handleMCP exampleHost server exampleVisit
             (post (js "{'jsonrpc':'2.0','id':7,'method':'tools/call'}")))
      = EncodeResponse resp
    ∧ JSONRPCResponse.JSONRPC resp = "2.0"
    ∧ JSONRPCResponse.ID resp = decodedID (membersOf (Some tree))
    ∧ (∀ raw v, lastMember "id" (membersOf (Some tree)) = Some (raw, v) →
         json.valueInterface v = (JSONRPCResponse.ID resp, None))
    ∧ JSONRPCResponse.ID resp
      = float64_ (S754_finite false 7881299347898368 (-50))
    ∧ xorb (JSONRPCResponse.hasResult resp) (JSONRPCResponse.hasError resp)
      = true
    ∧ (JSONRPCResponse.keys resp = ["jsonrpc"; "id"; "result"]
       ∨ JSONRPCResponse.keys resp = ["jsonrpc"; "id"; "error"]).
Proof.
  apply (response_echoes_decoded_id exampleHost server exampleVisit
           (js "{'jsonrpc':'2.0','id':7,'method':'tools/call'}")
           (JSONRPCRequest.mk "2.0"
              (float64_ (S754_finite false 7881299347898368 (-50)))
              "tools/call" "")).
  vm_compute. reflexivity.
Defined.

(** C1 does not hold for every identifier: the bodies with the
    identifiers 9007199254740993 and 9007199254740992 both decode as
    requests, and both get the response with the float64 identifier
    4503599627370496 * 2^1 = 9007199254740992, which is not the
    identifier of the first request. *)
Lemma large_id_is_rounded :
  wellFormed (js "{'jsonrpc':'2.0','id':9007199254740993,'method':'initialize'}")
    (JSONRPCRequest.mk "2.0" (float64_ (S754_finite false 4503599627370496 1))
       "initialize" "")
  ∧ wellFormed
      (js "{'jsonrpc':'2.0','id':9007199254740992,'method':'initialize'}")
      (JSONRPCRequest.mk "2.0"
         (float64_ (S754_finite false 4503599627370496 1)) "initialize" "")
  ∧ lastMember "id"
      (membersOf
         (json.parse
            (js "{'jsonrpc':'2.0','id':9007199254740993,'method':'initialize'}")))
    = Some ("9007199254740993", json.Number "9007199254740993")
  ∧ lastMember "id"
      (membersOf
         (json.parse
            (js "{'jsonrpc':'2.0','id':9007199254740992,'method':'initialize'}")))
    = Some ("9007199254740992", json.Number "9007199254740992")
  ∧ Out (handleMCP exampleHost server exampleVisit
           (post (js "{'jsonrpc':'2.0','id':9007199254740993,'method':'initialize'}")))
    = EncodeResponse
        (resultResponse (float64_ (S754_finite false 4503599627370496 1))
           initializeResult)
  ∧ Out (handleMCP exampleHost server exampleVisit
           (post (js "{'jsonrpc':'2.0','id':9007199254740992,'method':'initialize'}")))
    = EncodeResponse
        (resultResponse (float64_ (S754_finite false 4503599627370496 1))
           initializeResult)
  ∧ (4503599627370496 * 2 ^ 1 = 9007199254740992)%Z
  ∧ (9007199254740992 ≠ 9007199254740993)%Z.
Proof.
  split; [vm_compute; reflexivity|].
  split; [vm_compute; reflexivity|].
  split; [vm_compute; reflexivity|].
  split; [vm_compute; reflexivity|].
  split; [vm_compute; reflexivity|].
  split; [vm_compute; reflexivity|].
  split; [reflexivity|]. discriminate.
Qed.
